(** * LucidTalk Core SDK: the session orchestration shell

    A shallow embedding of the [LucidTalk] class (the SDK entry point that
    wraps the backend modules) and the properties of its configuration
    handling, lazy backend initialisation, session lifecycle, event
    forwarding and mock transcription fallback. *)

From Stdlib Require Import ZArith Ascii String List Bool Lia.
From Stdlib Require Import PrimFloat.
From stdpp Require Import base option gmap strings pretty list fin_maps.
Import ListNotations.
Local Open Scope string_scope.

Set Warnings "-register-all,-inexact-float".

(** ** JavaScript values

    The values a caller can place in a configuration object.  Numbers are
    IEEE doubles, as in the language. *)

Inductive jsval : Type :=
| JUndefined
| JNull
| JBool (b : bool)
| JNum (f : float)
| JStr (s : string)
| JObj (props : gmap string jsval).

(** ToBoolean: [undefined], [null], [false], [0], [-0], [NaN] and the empty
    string are falsy, everything else (objects included) is truthy. *)
Definition truthy (v : jsval) : bool :=
  match v with
  | JUndefined | JNull => false
  | JBool b => b
  | JNum f => negb (PrimFloat.eqb f 0 || PrimFloat.is_nan f)
  | JStr s => negb (String.eqb s "")
  | JObj _ => true
  end.

(** Reading a property of an object that is absent evaluates to
    [undefined]. *)
Definition prop (o : gmap string jsval) (k : string) : jsval :=
  default JUndefined (o !! k).

(** Strict inequality with a string literal, [v !== 'lit']. *)
Definition strict_ne_str (v : jsval) (lit : string) : bool :=
  match v with
  | JStr s => negb (String.eqb s lit)
  | _ => true
  end.

(** ** Exceptions and completions

    What is thrown is an error object: an [Error] of the class or of a
    collaborator, or a [TypeError] of the language.  A collaborator that
    fails with [null] or [undefined] in place of an error object is treated
    in the section on failures without an error object. *)

Inductive thrown : Type :=
| Error (message : string)
| TypeError (message : string).

Inductive completion (A : Type) : Type :=
| Normal (a : A)
| Throw (e : thrown).
Arguments Normal {A} a.
Arguments Throw {A} e.

(** The message of the [TypeError] a property read on [undefined] or
    [null] raises, as the runtime words it; the key is named when its text
    is known. *)
Definition cannot_read (base : string) (key : option string) : string :=
  "Cannot read properties of " ++ base
  ++ match key with Some k => " (reading '" ++ k ++ "')" | None => "" end.

(** Member access [v.k] for a fixed key: a [TypeError] on [undefined] and
    [null], the own property on an object, [undefined] on the other
    primitives (the keys read this way, [driveKey] and [discoveryKey], are
    not properties of the primitive wrappers or of [Object.prototype]). *)
Definition get_member (v : jsval) (k : string) : completion jsval :=
  match v with
  | JUndefined => Throw (TypeError (cannot_read "undefined" (Some k)))
  | JNull => Throw (TypeError (cannot_read "null" (Some k)))
  | JObj o => Normal (prop o k)
  | _ => Normal JUndefined
  end.

(** ** Property keys

    A computed member access [base[key]] converts the key to a property
    name.  A string is its own name, a boolean, [null] and [undefined]
    convert to their literal text, and a number to its decimal text, which
    is kept as the number it comes from.  An object is converted through its
    [toString] and then its [valueOf]: the [toString] every object inherits
    answers ["[object Object]"]; an own property of that name hides it, and
    since no value of the model is callable the conversion then falls to
    [valueOf], where an own property is not callable either and the
    inherited one answers the object itself, which is no primitive: the
    conversion raises a [TypeError]. *)

Inductive property_key : Type :=
| KeyString (name : string)
| KeyNumber (f : float).

Definition own_toString (v : jsval) : bool :=
  match v with
  | JObj o => match o !! "toString" with Some _ => true | None => false end
  | _ => false
  end.

Definition to_property_key (v : jsval) : completion property_key :=
  match v with
  | JUndefined => Normal (KeyString "undefined")
  | JNull => Normal (KeyString "null")
  | JBool true => Normal (KeyString "true")
  | JBool false => Normal (KeyString "false")
  | JNum f => Normal (KeyNumber f)
  | JStr s => Normal (KeyString s)
  | JObj _ =>
      if own_toString v
      then Throw (TypeError "Cannot convert object to primitive value")
      else Normal (KeyString "[object Object]")
  end.

(** Member access [base[key]] with a computed key, where only the
    exception matters to the caller.  The base is checked first: the read
    raises on [undefined] and [null]; then the key is converted, which
    raises for an object with an own [toString]. *)
Definition read_computed (base key : jsval) : completion unit :=
  let name := match to_property_key key with
              | Normal (KeyString k) => Some k
              | _ => None
              end in
  match base with
  | JUndefined => Throw (TypeError (cannot_read "undefined" name))
  | JNull => Throw (TypeError (cannot_read "null" name))
  | _ => match to_property_key key with
         | Normal _ => Normal tt
         | Throw e => Throw e
         end
  end.

(** The errors of the specification's taxonomy, as the class raises them. *)
Definition ConfigurationError : thrown := Error "Privacy mode is required".
Definition AlreadyActive : thrown := Error "Transcription already in progress".
Definition AIProviderNotConfigured : thrown := Error "AI provider not configured".
Definition P2PNotEnabled : thrown := Error "P2P not enabled".
Definition NoActiveSession : thrown := Error "No session to share".

(** ** Configuration *)

Definition default_config : gmap string jsval :=
  <["privacy" := JStr "local-only"]>
  (<["p2p" := JBool false]>
  (<["ai" := JStr "local"]>
  (<["apiKeys" := JObj ∅]>
  (<["storagePath" := JStr "./sessions"]>
  (<["backendPath" := JNull]> ∅))))).

(** [{ ...defaults, ...config }]: the caller's own properties win. *)
Definition merge_config (config : gmap string jsval) : gmap string jsval :=
  config ∪ default_config.

(** [validateConfig].  The second statement only writes a warning to the
    console, which is not part of the model; its guard is still evaluated,
    left to right with short-circuiting, because reading
    [apiKeys[ai]] raises when [apiKeys] is [null] or [undefined] and when
    [ai] does not convert to a property name. *)
Definition validateConfig (cfg : gmap string jsval) : completion unit :=
  if negb (truthy (prop cfg "privacy")) then Throw ConfigurationError
  else if truthy (prop cfg "ai") then
    read_computed (prop cfg "apiKeys") (prop cfg "ai")
  else Normal tt.

(** ** Sessions, events and signals *)

Record Session : Type := {
  session_id : string;
  startTime : Z;
  endTime : option Z;
  participants : list jsval;
  status : string;
  driveKey : option jsval;
  discoveryKey : option jsval
}.

(** A transcription event as the orchestrator emits it.  [speaker] may be
    absent. *)
Record TranscriptionEvent : Type := {
  text : string;
  timestamp : Z;
  confidence : float;
  isFinal : bool;
  speaker : option string
}.

(** A raw event of the transcription backend: the five fields the
    forwarding listener reads, and whatever else the backend attaches. *)
Record RawTranscription : Type := {
  raw_text : string;
  raw_timestamp : Z;
  raw_confidence : float;
  raw_isFinal : bool;
  raw_speaker : option string;
  raw_extra : gmap string jsval
}.

(** What [emit] is called with: the event name and its payload.  The
    payload of ['session:started'] is whatever [currentSession] holds. *)
Inductive Signal : Type :=
| SigInitialized
| SigTranscription (e : TranscriptionEvent)
| SigSessionStarted (s : option Session)
| SigSessionStopped (s : Session)
| SigSessionShared (info : jsval)
| SigSessionConnected (info : jsval)
| SigSummaryGenerated (summary : jsval).

Definition signal_name (s : Signal) : string :=
  match s with
  | SigInitialized => "initialized"
  | SigTranscription _ => "transcription"
  | SigSessionStarted _ => "session:started"
  | SigSessionStopped _ => "session:stopped"
  | SigSessionShared _ => "session:shared"
  | SigSessionConnected _ => "session:connected"
  | SigSummaryGenerated _ => "summary:generated"
  end.

(** ** Prompt templates

    [getPromptTemplate(template, options)] looks the name up in an object
    literal, so a name that is no key of the literal but a property every
    object inherits from [Object.prototype] is found too, and what is found
    there is a function or an object, not a prompt text. *)

Inductive prompt : Type :=
| PromptValue (v : jsval)
| PromptInherited (name : string).

Definition object_prototype_names : list string :=
  [ "constructor"; "__defineGetter__"; "__defineSetter__"; "hasOwnProperty";
    "__lookupGetter__"; "__lookupSetter__"; "isPrototypeOf";
    "propertyIsEnumerable"; "toString"; "valueOf"; "__proto__";
    "toLocaleString" ].

Definition inherited_name (name : string) : bool :=
  existsb (String.eqb name) object_prototype_names.

Definition meeting_notes_prompt : string :=
  "Generate comprehensive meeting notes with key points and decisions.".
Definition action_items_prompt : string :=
  "Extract action items and assignments from the meeting.".
Definition study_notes_prompt : string :=
  "Create study notes with key concepts and definitions.".
Definition interview_prompt : string :=
  "Summarize interview with key insights and responses.".
Definition generic_prompt : string := "Summarize the following transcript.".

(** The [templates] literal; [a || b] is [a] when [a] is truthy. *)
Definition js_or (a b : jsval) : jsval := if truthy a then a else b.

Definition templates (options : gmap string jsval) : gmap string jsval :=
  <["meeting-notes" := JStr meeting_notes_prompt]>
  (<["action-items" := JStr action_items_prompt]>
  (<["study-notes" := JStr study_notes_prompt]>
  (<["interview" := JStr interview_prompt]>
  (<["custom" := js_or (prop options "customPrompt") (JStr generic_prompt)]> ∅)))).

Definition getPromptTemplate (template : string) (options : gmap string jsval) : prompt :=
  match templates options !! template with
  | Some v => PromptValue (js_or v (prop (templates options) "meeting-notes"))
  | None =>
      if inherited_name template then PromptInherited template
      else PromptValue (prop (templates options) "meeting-notes")
  end.

(** The name [summarize] looks up, [options.template || 'meeting-notes'],
    for the values whose conversion to a property name is immediate;
    [None] for numbers and objects, which [select_prompt] covers. *)
Definition requested_template (options : gmap string jsval) : option string :=
  match js_or (prop options "template") (JStr "meeting-notes") with
  | JStr s => Some s
  | JBool true => Some "true"
  | _ => None
  end.

(** [this.getPromptTemplate(template, options)] for whatever value
    [summarize] passes as [template]: the value is converted to a property
    name to index the literal, which raises for an object with an own
    [toString].  The decimal text of a number is neither a key of the
    literal nor the name of an inherited member, so a number falls back to
    the meeting-notes text. *)
Definition select_prompt (template : jsval) (options : gmap string jsval)
    : completion prompt :=
  match to_property_key template with
  | Throw e => Throw e
  | Normal (KeyString name) => Normal (getPromptTemplate name options)
  | Normal (KeyNumber _) => Normal (PromptValue (prop (templates options) "meeting-notes"))
  end.

(** ** The backend collaborators

    The backend modules are outside the repository.  Every interaction with
    them is recorded in a history, and what each interaction answers is an
    input of the operation that performs it. *)

Inductive Call : Type :=
| CallRequire (module_path : string)
| CallNewHyperdriveManager
| CallNewSessionDriveManager (storagePath : jsval)
| CallHyperdriveInitialize
| CallNewTranscriptionManager
| CallNewAIProviderManager
| CallAIConfigure (provider : jsval) (apiKeys : jsval)
| CallCreateSessionDrive (sessionId : string)
| CallStartTranscription (options : gmap string jsval)
| CallStopRecording
| CallGetTranscript
| CallGenerateSummary (transcript : string) (template : prompt)
    (options : gmap string jsval)
| CallShareSession (sessionId : jsval)
| CallConnectToSession (driveKey : jsval).

Inductive outcome (A : Type) : Type :=
| Returns (a : A)
| Raises (e : thrown).
Arguments Returns {A} a.
Arguments Raises {A} e.

(** The answers of the environment during one operation: the module
    loader, the constructors and methods of the four managers, the clock
    and the random generator. *)
Record Env : Type := {
  dirname : string;
  require : string -> outcome unit;
  new_HyperdriveManager : outcome unit;
  new_SessionDriveManager : outcome unit;
  hyperdrive_initialize : outcome unit;
  new_TranscriptionManager : outcome unit;
  new_AIProviderManager : outcome unit;
  ai_configure : outcome unit;
  createSessionDrive : string -> outcome jsval;
  transcription_start : outcome unit;
  stopRecording : outcome unit;
  getTranscript : outcome string;
  generateSummary : outcome jsval;
  session_shareSession : jsval -> outcome jsval;
  session_connectToSession : jsval -> outcome jsval;
  now_id : Z;
  now_start : Z;
  now_end : Z;
  random_base36 : string
}.

(** ** The orchestrator and its surroundings *)

(** The transcription backend handle; [forwarders] counts the listeners
    this class has registered on it for its ['transcription'] event. *)
Record TranscriptionHandle : Type := { forwarders : nat }.

(** An interval timer of the runtime: the period it was registered with
    and the [counter] variable its callback closes over.  The counter is a
    number of the language that only ever holds a count of firings; it is
    kept as a natural number, which is what a double holds exactly on the
    range a running timer can reach. *)
Record Timer : Type := { period_ms : Z; counter : nat }.

Record Managers : Type := {
  hyperdrive : bool;
  session : bool;
  transcription : option TranscriptionHandle;
  ai : bool;
  initialized : bool
}.

(** The fields of a [LucidTalk] instance ([config], [isTranscribing],
    [currentSession], [managers], the listeners of the emitter it extends),
    the interval timers of the runtime with the counter each closure holds,
    and the history of emitted signals, of their deliveries to listeners
    and of the backend calls. *)
Record World : Type := {
  config : gmap string jsval;
  isTranscribing : bool;
  currentSession : option Session;
  managers : Managers;
  listeners : list (string * nat);
  timers : gmap nat Timer;
  next_timer : nat;
  emitted : list Signal;
  delivered : list (nat * Signal);
  calls : list Call
}.

Definition set_config (c : gmap string jsval) (w : World) : World :=
  {| config := c; isTranscribing := isTranscribing w;
     currentSession := currentSession w; managers := managers w;
     listeners := listeners w; timers := timers w;
     next_timer := next_timer w; emitted := emitted w;
     delivered := delivered w; calls := calls w |}.

Definition set_isTranscribing (b : bool) (w : World) : World :=
  {| config := config w; isTranscribing := b;
     currentSession := currentSession w; managers := managers w;
     listeners := listeners w; timers := timers w;
     next_timer := next_timer w; emitted := emitted w;
     delivered := delivered w; calls := calls w |}.

Definition set_currentSession (s : option Session) (w : World) : World :=
  {| config := config w; isTranscribing := isTranscribing w;
     currentSession := s; managers := managers w;
     listeners := listeners w; timers := timers w;
     next_timer := next_timer w; emitted := emitted w;
     delivered := delivered w; calls := calls w |}.

Definition set_managers (m : Managers) (w : World) : World :=
  {| config := config w; isTranscribing := isTranscribing w;
     currentSession := currentSession w; managers := m;
     listeners := listeners w; timers := timers w;
     next_timer := next_timer w; emitted := emitted w;
     delivered := delivered w; calls := calls w |}.

Definition set_listeners (l : list (string * nat)) (w : World) : World :=
  {| config := config w; isTranscribing := isTranscribing w;
     currentSession := currentSession w; managers := managers w;
     listeners := l; timers := timers w;
     next_timer := next_timer w; emitted := emitted w;
     delivered := delivered w; calls := calls w |}.

Definition set_timers (t : gmap nat Timer) (n : nat) (w : World) : World :=
  {| config := config w; isTranscribing := isTranscribing w;
     currentSession := currentSession w; managers := managers w;
     listeners := listeners w; timers := t;
     next_timer := n; emitted := emitted w;
     delivered := delivered w; calls := calls w |}.

Definition set_hyperdrive (b : bool) (m : Managers) : Managers :=
  {| hyperdrive := b; session := session m; transcription := transcription m;
     ai := ai m; initialized := initialized m |}.
Definition set_session (b : bool) (m : Managers) : Managers :=
  {| hyperdrive := hyperdrive m; session := b; transcription := transcription m;
     ai := ai m; initialized := initialized m |}.
Definition set_transcription (h : option TranscriptionHandle) (m : Managers) : Managers :=
  {| hyperdrive := hyperdrive m; session := session m; transcription := h;
     ai := ai m; initialized := initialized m |}.
Definition set_ai (b : bool) (m : Managers) : Managers :=
  {| hyperdrive := hyperdrive m; session := session m; transcription := transcription m;
     ai := b; initialized := initialized m |}.
Definition set_initialized (b : bool) (m : Managers) : Managers :=
  {| hyperdrive := hyperdrive m; session := session m; transcription := transcription m;
     ai := ai m; initialized := b |}.

Definition record_call (c : Call) (w : World) : World :=
  {| config := config w; isTranscribing := isTranscribing w;
     currentSession := currentSession w; managers := managers w;
     listeners := listeners w; timers := timers w;
     next_timer := next_timer w; emitted := emitted w;
     delivered := delivered w; calls := calls w ++ [c] |}.

(** The listeners registered for an event name, in registration order. *)
Definition listeners_for (name : string) (l : list (string * nat)) : list nat :=
  map snd (List.filter (fun r => String.eqb (fst r) name) l).

(** [this.emit(name, payload)]: every listener registered under the name
    is called with the payload.  A payload that is a session record is
    recorded as it is at the time of the call.  Listeners are the caller's
    code; they are taken to return without throwing. *)
Definition record_emit (s : Signal) (w : World) : World :=
  {| config := config w; isTranscribing := isTranscribing w;
     currentSession := currentSession w; managers := managers w;
     listeners := listeners w; timers := timers w;
     next_timer := next_timer w; emitted := emitted w ++ [s];
     delivered := delivered w
                  ++ map (fun cb => (cb, s)) (listeners_for (signal_name s) (listeners w));
     calls := calls w |}.

(** ** A state and exception monad for the methods

    A method runs on the world and completes normally or abruptly; the
    mutations made before an exception stay. *)

Definition M (A : Type) : Type := World -> completion A * World.

Definition ret {A} (a : A) : M A := fun w => (Normal a, w).

Definition bind {A B} (m : M A) (k : A -> M B) : M B :=
  fun w => match m w with
           | (Normal a, w') => k a w'
           | (Throw e, w') => (Throw e, w')
           end.

Definition throw {A} (e : thrown) : M A := fun w => (Throw e, w).

Definition try_catch {A} (m : M A) (handler : thrown -> M A) : M A :=
  fun w => match m w with
           | (Normal a, w') => (Normal a, w')
           | (Throw e, w') => handler e w'
           end.

Definition get : M World := fun w => (Normal w, w).

Definition modify (f : World -> World) : M unit := fun w => (Normal tt, f w).

Definition lift {A} (c : completion A) : M A := fun w => (c, w).

(** A call into a collaborator: recorded, then answered by the
    environment. *)
Definition call {A} (c : Call) (o : outcome A) : M A :=
  fun w => (match o with Returns a => Normal a | Raises e => Throw e end,
            record_call c w).

Definition emit (s : Signal) : M unit := modify (record_emit s).

Declare Scope lt_scope.
Delimit Scope lt_scope with lt.
Notation "'let*' x ':=' m 'in' k" := (bind m (fun x => k))
  (at level 10, x name, m at level 100, k at level 200) : lt_scope.
Notation "m1 '>>' m2" := (bind m1 (fun _ => m2))
  (at level 100, m2 at level 200, right associativity) : lt_scope.
Local Open Scope lt_scope.

(** ** The methods of [LucidTalk] *)

(** *** Paths

    [path.join] of the runtime's [path] module, in its POSIX flavour: the
    non-empty arguments are joined with a separator and the result is
    normalised. *)

(** The texts between the separators of a path. *)
Fixpoint segments (s : string) : list string :=
  match s with
  | EmptyString => [EmptyString]
  | String c s' =>
      if Ascii.eqb c "/" then EmptyString :: segments s'
      else match segments s' with
           | seg :: rest => String c seg :: rest
           | [] => [String c EmptyString]
           end
  end.

(** One segment of the scan of [normalizeString]; [res] holds the segments
    kept so far, the last one first.  An empty segment and [.] are dropped;
    [..] removes the segment before it, unless there is none or it is
    itself [..], in which case it is kept if the path is relative. *)
Definition normalize_segment (allowAboveRoot : bool) (res : list string) (seg : string)
    : list string :=
  if String.eqb seg "" || String.eqb seg "." then res
  else if String.eqb seg ".." then
    match res with
    | last :: before =>
        if String.eqb last ".."
        then (if allowAboveRoot then ".." :: res else res)
        else before
    | [] => if allowAboveRoot then [".."] else []
    end
  else seg :: res.

Definition normalizeString (path : string) (allowAboveRoot : bool) : string :=
  String.concat "/" (rev (fold_left (normalize_segment allowAboveRoot) (segments path) [])).

Definition starts_with_slash (s : string) : bool :=
  match s with String c _ => Ascii.eqb c "/" | EmptyString => false end.

Definition ends_with_slash (s : string) : bool :=
  match rev (segments s) with
  | last :: _ :: _ => String.eqb last ""
  | _ => false
  end.

(** [path.normalize(path)] *)
Definition path_normalize (path : string) : string :=
  if String.eqb path "" then "." else
  let isAbsolute := starts_with_slash path in
  let trailingSeparator := ends_with_slash path in
  let body := normalizeString path (negb isAbsolute) in
  if String.eqb body "" then
    (if isAbsolute then "/" else if trailingSeparator then "./" else ".")
  else
    (if isAbsolute then "/" else "") ++ body ++ (if trailingSeparator then "/" else "").

(** [path.join(a, b)] on two strings. *)
Definition join_paths (a b : string) : string :=
  let joined := if String.eqb a "" then b
                else if String.eqb b "" then a
                else a ++ "/" ++ b in
  if String.eqb joined "" then "." else path_normalize joined.

(** [path.join(base, rel)] with [rel] a string literal: the arguments are
    validated first, and a base that is not a string raises. *)
Definition path_join (base : jsval) (rel : string) : completion string :=
  match base with
  | JStr b => Normal (join_paths b rel)
  | _ => Throw (TypeError "The path argument must be of type string")
  end.

Definition empty_managers : Managers :=
  {| hyperdrive := false; session := false; transcription := None;
     ai := false; initialized := false |}.

(** [new LucidTalk(config)]; [None] is the omitted argument. *)
Definition constructor (config : option (gmap string jsval)) : completion World :=
  let cfg := merge_config (default ∅ config) in
  match validateConfig cfg with
  | Throw e => Throw e
  | Normal _ =>
      Normal {| config := cfg; isTranscribing := false; currentSession := None;
                managers := empty_managers; listeners := []; timers := ∅;
                next_timer := 0; emitted := []; delivered := []; calls := [] |}
  end.

Definition update_managers (f : Managers -> Managers) : M unit :=
  modify (fun w => set_managers (f (managers w)) w).

(** The body of the first [try] of [initialize]: both P2P modules are
    loaded, both managers constructed, then the drive manager is
    initialised. *)
Definition load_p2p (env : Env) : M unit :=
  let* w := get in
  let* p1 := lift (path_join (prop (config w) "backendPath") "backend/HyperdriveManager") in
  call (CallRequire p1) (require env p1) >>
  let* p2 := lift (path_join (prop (config w) "backendPath") "backend/SessionDriveManager") in
  call (CallRequire p2) (require env p2) >>
  call CallNewHyperdriveManager (new_HyperdriveManager env) >>
  update_managers (set_hyperdrive true) >>
  call (CallNewSessionDriveManager (prop (config w) "storagePath"))
       (new_SessionDriveManager env) >>
  update_managers (set_session true) >>
  call CallHyperdriveInitialize (hyperdrive_initialize env).

(** The body of the second [try]. *)
Definition load_transcription (env : Env) : M unit :=
  let* w := get in
  let* p := lift (path_join (prop (config w) "backendPath") "src/electron/TranscriptionManager") in
  call (CallRequire p) (require env p) >>
  call CallNewTranscriptionManager (new_TranscriptionManager env) >>
  update_managers (set_transcription (Some {| forwarders := 0 |})).

(** The body of the third [try]. *)
Definition load_ai (env : Env) : M unit :=
  let* w := get in
  let* p := lift (path_join (prop (config w) "backendPath") "src/electron/ai/AIProviderManager") in
  call (CallRequire p) (require env p) >>
  call CallNewAIProviderManager (new_AIProviderManager env) >>
  update_managers (set_ai true) >>
  call (CallAIConfigure (prop (config w) "ai") (prop (config w) "apiKeys"))
       (ai_configure env).

(** [catch (error) { console.warn(..., error.message) }]: the message of
    the caught error is written to the console, which is not part of the
    model.  Every [thrown] is an error object and has a message to read;
    a failure that carries [null] or [undefined] instead is the subject of
    the section on failures without an error object below. *)
Definition warn_and_continue (e : thrown) : M unit := ret tt.

(** The four steps of [initialize], in the order of the source. *)

(** "Set default backend path if not provided" *)
Definition init_backendPath (env : Env) : M unit :=
  let* w := get in
  if negb (truthy (prop (config w) "backendPath"))
  then modify (fun w => set_config (<["backendPath" := JStr (join_paths (dirname env) "..")]>
                                      (config w)) w)
  else ret tt.

(** "Load P2P modules if enabled" *)
Definition init_p2p (env : Env) : M unit :=
  let* w := get in
  if truthy (prop (config w) "p2p")
  then try_catch (load_p2p env) warn_and_continue
  else ret tt.

(** "Load transcription module" *)
Definition init_transcription (env : Env) : M unit :=
  try_catch (load_transcription env) warn_and_continue.

(** "Load AI module if configured" *)
Definition init_ai (env : Env) : M unit :=
  let* w := get in
  if truthy (prop (config w) "ai") && strict_ne_str (prop (config w) "ai") "local"
  then try_catch (load_ai env) warn_and_continue
  else ret tt.

Definition initialize (env : Env) : M unit :=
  let* w := get in
  if initialized (managers w) then ret tt else
  init_backendPath env >>
  init_p2p env >>
  init_transcription env >>
  init_ai env >>
  update_managers (set_initialized true) >>
  emit SigInitialized.

(** [`session_${Date.now()}_${Math.random().toString(36).substr(2, 9)}`] *)
Definition generateSessionId (env : Env) : string :=
  "session_" ++ pretty (now_id env) ++ "_" ++ substring 2 9 (random_base36 env).

Definition mockPhrases : list string :=
  [ "Hello everyone, welcome to the meeting";
    "Let's start with the agenda for today";
    "First item is about the project timeline";
    "We need to discuss the upcoming deadline";
    "Any questions or concerns?" ].

(** [setInterval(callback, ms)] registers a timer under a fresh handle;
    [clearInterval(handle)] removes it. *)
Definition setInterval (t : Timer) : M nat :=
  let* w := get in
  modify (fun w => set_timers (<[next_timer w := t]> (timers w)) (S (next_timer w)) w) >>
  ret (next_timer w).

Definition clearInterval (tid : nat) : M unit :=
  modify (fun w => set_timers (delete tid (timers w)) (next_timer w) w).

(** [startMockTranscription]: a timer of period 3000 ms whose closure
    starts with [counter = 0]; the handle is known to the callback only. *)
Definition startMockTranscription : M unit :=
  setInterval {| period_ms := 3000; counter := 0 |} >> ret tt.

Definition mock_event (c : nat) (now : Z) : TranscriptionEvent :=
  {| text := nth (c mod length mockPhrases) mockPhrases "";
     timestamp := now;
     confidence := 0.95%float;
     isFinal := true;
     speaker := Some "Speaker 1" |}.

(** One firing of the timer [tid] at clock value [now]: the callback given
    to [setInterval].  A cleared timer does not fire. *)
Definition tick (now : Z) (tid : nat) : M unit :=
  let* w := get in
  match timers w !! tid with
  | None => ret tt
  | Some t =>
      if negb (isTranscribing w)
      then clearInterval tid
      else
        emit (SigTranscription (mock_event (counter t) now)) >>
        modify (fun w => set_timers
                           (<[tid := {| period_ms := period_ms t; counter := S (counter t) |}]>
                              (timers w))
                           (next_timer w) w)
  end.

(** The listener [startTranscription] registers on the backend handle. *)
Definition forward (data : RawTranscription) : TranscriptionEvent :=
  {| text := raw_text data;
     timestamp := raw_timestamp data;
     confidence := raw_confidence data;
     isFinal := raw_isFinal data;
     speaker := raw_speaker data |}.

Definition add_forwarder (h : TranscriptionHandle) : TranscriptionHandle :=
  {| forwarders := S (forwarders h) |}.

Definition new_session (env : Env) : Session :=
  {| session_id := generateSessionId env;
     startTime := now_start env;
     endTime := None;
     participants := [];
     status := "active";
     driveKey := None;
     discoveryKey := None |}.

Definition set_driveKey (v : jsval) (s : Session) : Session :=
  {| session_id := session_id s; startTime := startTime s; endTime := endTime s;
     participants := participants s; status := status s;
     driveKey := Some v; discoveryKey := discoveryKey s |}.

Definition set_discoveryKey (v : jsval) (s : Session) : Session :=
  {| session_id := session_id s; startTime := startTime s; endTime := endTime s;
     participants := participants s; status := status s;
     driveKey := driveKey s; discoveryKey := Some v |}.

Definition end_session (now : Z) (s : Session) : Session :=
  {| session_id := session_id s; startTime := startTime s; endTime := Some now;
     participants := participants s; status := "ended";
     driveKey := driveKey s; discoveryKey := discoveryKey s |}.

Definition update_session (f : Session -> Session) : M unit :=
  modify (fun w => set_currentSession (f <$> currentSession w) w).

(** The body of the [try] that creates the P2P session drive. *)
Definition create_p2p_session (env : Env) (sid : string) : M unit :=
  let* driveInfo := call (CallCreateSessionDrive sid) (createSessionDrive env sid) in
  let* dk := lift (get_member driveInfo "driveKey") in
  update_session (set_driveKey dk) >>
  let* dsk := lift (get_member driveInfo "discoveryKey") in
  update_session (set_discoveryKey dsk).

(** The options handed to the backend:
    [{ sessionId, outputDir: this.config.storagePath, ...options }]. *)
Definition start_options (sid : string) (storagePath : jsval)
    (options : gmap string jsval) : gmap string jsval :=
  options ∪ <["sessionId" := JStr sid]> (<["outputDir" := storagePath]> ∅).

(** The body of the [try] that starts the backend. *)
Definition start_backend (env : Env) (sid : string) (options : gmap string jsval)
    (h : TranscriptionHandle) : M unit :=
  let* w := get in
  call (CallStartTranscription (start_options sid (prop (config w) "storagePath") options))
       (transcription_start env) >>
  update_managers (set_transcription (Some (add_forwarder h))) >>
  modify (set_isTranscribing true).

(** [catch (error) { console.error(..., error); throw error }]: the
    caught error is written to the console as it is and thrown again. *)
Definition log_and_rethrow {A} (e : thrown) : M A := throw e.

(** [catch (error) { console.error(..., error.message); throw error }],
    the handler of the delegated start: the message of the caught error is
    read before the error is thrown again.  Every [thrown] is an error
    object and has a message to read. *)
Definition log_message_and_rethrow {A} (e : thrown) : M A := throw e.

(** "Create P2P session if enabled" *)
Definition start_p2p_session (env : Env) (sid : string) : M unit :=
  let* w := get in
  if truthy (prop (config w) "p2p") && session (managers w)
  then try_catch (create_p2p_session env sid) warn_and_continue
  else ret tt.

(** "Start transcription": delegated to the backend when its handle
    exists, the mock generator otherwise. *)
Definition start_capture (env : Env) (sid : string) (options : gmap string jsval)
    : M unit :=
  let* w := get in
  match transcription (managers w) with
  | Some h => try_catch (start_backend env sid options h) log_message_and_rethrow
  | None => modify (set_isTranscribing true) >> startMockTranscription
  end.

Definition startTranscription (env : Env) (options : gmap string jsval)
    : M (option Session) :=
  let* w := get in
  if isTranscribing w then throw AlreadyActive else
  initialize env >>
  let s := new_session env in
  modify (set_currentSession (Some s)) >>
  start_p2p_session env (session_id s) >>
  start_capture env (session_id s) options >>
  let* w := get in
  emit (SigSessionStarted (currentSession w)) >>
  ret (currentSession w).

Definition stopTranscription (env : Env) : M unit :=
  let* w := get in
  if negb (isTranscribing w) then ret tt else
  match transcription (managers w) with
  | Some _ => call CallStopRecording (stopRecording env)
  | None => ret tt
  end >>
  modify (set_isTranscribing false) >>
  match currentSession w with
  | Some cur =>
      let ended := end_session (now_end env) cur in
      modify (set_currentSession (Some ended)) >>
      emit (SigSessionStopped ended)
  | None => ret tt
  end.

Definition mock_transcript : string := "Mock transcript text for testing".

Definition getTranscriptText (env : Env) : M string :=
  let* w := get in
  match transcription (managers w) with
  | Some _ => call CallGetTranscript (getTranscript env)
  | None => ret mock_transcript
  end.

(** [summarize].  The argument of the delegated call is
    [{ transcript, template: this.getPromptTemplate(template, options),
    options }]; the prompt is selected inside the [try], after the
    transcript has been read and before the call is made. *)
Definition summarize (env : Env) (options : gmap string jsval) : M jsval :=
  let* w := get in
  if negb (ai (managers w)) then throw AIProviderNotConfigured else
  let template := js_or (prop options "template") (JStr "meeting-notes") in
  try_catch
    (let* transcriptText := getTranscriptText env in
     let* promptTemplate := lift (select_prompt template options) in
     let* summary := call (CallGenerateSummary transcriptText promptTemplate options)
                          (generateSummary env) in
     emit (SigSummaryGenerated summary) >>
     ret summary)
    log_and_rethrow.

(** [shareSession(sessionId)]; [JUndefined] is the omitted argument. *)
Definition shareSession (env : Env) (sessionId : jsval) : M jsval :=
  let* w := get in
  if negb (truthy (prop (config w) "p2p")) || negb (session (managers w))
  then throw P2PNotEnabled else
  let targetSessionId :=
    if truthy sessionId then sessionId
    else match currentSession w with
         | Some s => JStr (session_id s)
         | None => JUndefined
         end in
  if negb (truthy targetSessionId) then throw NoActiveSession else
  try_catch
    (let* shareInfo := call (CallShareSession targetSessionId)
                            (session_shareSession env targetSessionId) in
     emit (SigSessionShared shareInfo) >>
     ret shareInfo)
    log_and_rethrow.

Definition connectToSession (env : Env) (key : jsval) : M jsval :=
  let* w := get in
  if negb (truthy (prop (config w) "p2p")) || negb (session (managers w))
  then throw P2PNotEnabled else
  try_catch
    (let* sessionInfo := call (CallConnectToSession key)
                              (session_connectToSession env key) in
     emit (SigSessionConnected sessionInfo) >>
     ret sessionInfo)
    log_and_rethrow.

Definition getCurrentSession (w : World) : option Session := currentSession w.

Definition isActive (w : World) : bool := isTranscribing w.

(** [this.on(name, callback)]; callbacks are identified by a number. *)
Definition on (name : string) (callback : nat) : M unit :=
  modify (fun w => set_listeners (listeners w ++ [(name, callback)]) w).

Definition onTranscription (callback : nat) : M unit := on "transcription" callback.
Definition onSessionUpdate (callback : nat) : M unit := on "session:updated" callback.
Definition onError (callback : nat) : M unit := on "error" callback.

Definition removeAllListeners : M unit := modify (set_listeners []).

Definition dispose (env : Env) : M unit :=
  let* w := get in
  (if isTranscribing w then stopTranscription env else ret tt) >>
  removeAllListeners.

(** The backend handle emits one raw ['transcription'] event: each
    forwarding listener registered on it runs once. *)
Fixpoint repeatM (n : nat) (m : M unit) : M unit :=
  match n with
  | O => ret tt
  | S n' => m >> repeatM n' m
  end.

Definition backend_transcription (data : RawTranscription) : M unit :=
  let* w := get in
  match transcription (managers w) with
  | Some h => repeatM (forwarders h) (emit (SigTranscription (forward data)))
  | None => ret tt
  end.

(** ** Failures without an error object

    A collaborator may also fail with [null] or [undefined]: a module or a
    constructor that executes [throw null], a promise rejected without a
    reason.  The handlers of [initialize] and [startTranscription] read
    [error.message], and that read raises a [TypeError] on such a value:
    the handler itself throws and the method rejects.  This section gives
    the two methods for collaborators that fail in either way.  Which steps
    fail without an error object is an input next to the environment; when
    none does, the methods are [initialize] and [startTranscription] as
    given above. *)

Inductive nullish_value : Type := NullValue | UndefinedValue.

(** What a [catch] clause receives: an error object, whose [message] can
    be read, or a nullish value, which has no properties to read. *)
Inductive caught : Type :=
| CaughtError (e : thrown)
| CaughtNullish (v : nullish_value).

(** The [TypeError] that reading [error.message] raises. *)
Definition no_message (v : nullish_value) : thrown :=
  match v with
  | NullValue => TypeError (cannot_read "null" (Some "message"))
  | UndefinedValue => TypeError (cannot_read "undefined" (Some "message"))
  end.

(** For each collaborator step of the two methods: [Some v] when the step
    fails with the nullish value [v], whatever the environment answers;
    [None] when it answers as the environment says. *)
Record NullishFailures : Type := {
  nullish_require : string -> option nullish_value;
  nullish_new_HyperdriveManager : option nullish_value;
  nullish_new_SessionDriveManager : option nullish_value;
  nullish_hyperdrive_initialize : option nullish_value;
  nullish_new_TranscriptionManager : option nullish_value;
  nullish_new_AIProviderManager : option nullish_value;
  nullish_ai_configure : option nullish_value;
  nullish_createSessionDrive : string -> option nullish_value;
  nullish_transcription_start : option nullish_value
}.

(** The body of a [try]: it runs on the world and is done, or fails with
    what the [catch] clause will receive. *)
Inductive attempt (A : Type) : Type :=
| Done (a : A)
| Failed (c : caught).
Arguments Done {A} a.
Arguments Failed {A} c.

Definition Try (A : Type) : Type := World -> attempt A * World.

Definition bind_t {A B} (m : Try A) (k : A -> Try B) : Try B :=
  fun w => match m w with
           | (Done a, w') => k a w'
           | (Failed c, w') => (Failed c, w')
           end.

(** A statement of the class inside a [try]. *)
Definition inside {A} (m : M A) : Try A :=
  fun w => match m w with
           | (Normal a, w') => (Done a, w')
           | (Throw e, w') => (Failed (CaughtError e), w')
           end.

(** A call into a collaborator inside a [try]. *)
Definition step {A} (c : Call) (o : outcome A) (n : option nullish_value) : Try A :=
  fun w => (match n with
            | Some v => Failed (CaughtNullish v)
            | None => match o with
                      | Returns a => Done a
                      | Raises e => Failed (CaughtError e)
                      end
            end,
            record_call c w).

Definition guarded {A} (body : Try A) (handler : caught -> M A) : M A :=
  fun w => match body w with
           | (Done a, w') => (Normal a, w')
           | (Failed c, w') => handler c w'
           end.

(** [catch (error) { console.warn(..., error.message) }] *)
Definition warn_message (c : caught) : M unit :=
  match c with
  | CaughtError _ => ret tt
  | CaughtNullish v => throw (no_message v)
  end.

(** [catch (error) { console.error(..., error.message); throw error }] *)
Definition log_message_then_rethrow {A} (c : caught) : M A :=
  match c with
  | CaughtError e => throw e
  | CaughtNullish v => throw (no_message v)
  end.

Declare Scope try_scope.
Delimit Scope try_scope with try.
Notation "'let*' x ':=' m 'in' k" := (bind_t m (fun x => k))
  (at level 10, x name, m at level 100, k at level 200) : try_scope.
Notation "m1 '>>' m2" := (bind_t m1 (fun _ => m2))
  (at level 100, m2 at level 200, right associativity) : try_scope.

Definition load_p2p_any (nu : NullishFailures) (env : Env) : Try unit :=
  (let* w := inside get in
   let* p1 := inside (lift (path_join (prop (config w) "backendPath")
                                      "backend/HyperdriveManager")) in
   step (CallRequire p1) (require env p1) (nullish_require nu p1) >>
   let* p2 := inside (lift (path_join (prop (config w) "backendPath")
                                      "backend/SessionDriveManager")) in
   step (CallRequire p2) (require env p2) (nullish_require nu p2) >>
   step CallNewHyperdriveManager (new_HyperdriveManager env)
        (nullish_new_HyperdriveManager nu) >>
   inside (update_managers (set_hyperdrive true)) >>
   step (CallNewSessionDriveManager (prop (config w) "storagePath"))
        (new_SessionDriveManager env) (nullish_new_SessionDriveManager nu) >>
   inside (update_managers (set_session true)) >>
   step CallHyperdriveInitialize (hyperdrive_initialize env)
        (nullish_hyperdrive_initialize nu))%try.

Definition load_transcription_any (nu : NullishFailures) (env : Env) : Try unit :=
  (let* w := inside get in
   let* p := inside (lift (path_join (prop (config w) "backendPath")
                                     "src/electron/TranscriptionManager")) in
   step (CallRequire p) (require env p) (nullish_require nu p) >>
   step CallNewTranscriptionManager (new_TranscriptionManager env)
        (nullish_new_TranscriptionManager nu) >>
   inside (update_managers (set_transcription (Some {| forwarders := 0 |}))))%try.

Definition load_ai_any (nu : NullishFailures) (env : Env) : Try unit :=
  (let* w := inside get in
   let* p := inside (lift (path_join (prop (config w) "backendPath")
                                     "src/electron/ai/AIProviderManager")) in
   step (CallRequire p) (require env p) (nullish_require nu p) >>
   step CallNewAIProviderManager (new_AIProviderManager env)
        (nullish_new_AIProviderManager nu) >>
   inside (update_managers (set_ai true)) >>
   step (CallAIConfigure (prop (config w) "ai") (prop (config w) "apiKeys"))
        (ai_configure env) (nullish_ai_configure nu))%try.

Definition init_p2p_any (nu : NullishFailures) (env : Env) : M unit :=
  let* w := get in
  if truthy (prop (config w) "p2p")
  then guarded (load_p2p_any nu env) warn_message
  else ret tt.

Definition init_transcription_any (nu : NullishFailures) (env : Env) : M unit :=
  guarded (load_transcription_any nu env) warn_message.

Definition init_ai_any (nu : NullishFailures) (env : Env) : M unit :=
  let* w := get in
  if truthy (prop (config w) "ai") && strict_ne_str (prop (config w) "ai") "local"
  then guarded (load_ai_any nu env) warn_message
  else ret tt.

Definition initialize_any (nu : NullishFailures) (env : Env) : M unit :=
  let* w := get in
  if initialized (managers w) then ret tt else
  init_backendPath env >>
  init_p2p_any nu env >>
  init_transcription_any nu env >>
  init_ai_any nu env >>
  update_managers (set_initialized true) >>
  emit SigInitialized.

Definition create_p2p_session_any (nu : NullishFailures) (env : Env) (sid : string)
    : Try unit :=
  (let* driveInfo := step (CallCreateSessionDrive sid) (createSessionDrive env sid)
                          (nullish_createSessionDrive nu sid) in
   let* dk := inside (lift (get_member driveInfo "driveKey")) in
   inside (update_session (set_driveKey dk)) >>
   let* dsk := inside (lift (get_member driveInfo "discoveryKey")) in
   inside (update_session (set_discoveryKey dsk)))%try.

Definition start_backend_any (nu : NullishFailures) (env : Env) (sid : string)
    (options : gmap string jsval) (h : TranscriptionHandle) : Try unit :=
  (let* w := inside get in
   step (CallStartTranscription (start_options sid (prop (config w) "storagePath") options))
        (transcription_start env) (nullish_transcription_start nu) >>
   inside (update_managers (set_transcription (Some (add_forwarder h)))) >>
   inside (modify (set_isTranscribing true)))%try.

Definition start_p2p_session_any (nu : NullishFailures) (env : Env) (sid : string)
    : M unit :=
  let* w := get in
  if truthy (prop (config w) "p2p") && session (managers w)
  then guarded (create_p2p_session_any nu env sid) warn_message
  else ret tt.

Definition start_capture_any (nu : NullishFailures) (env : Env) (sid : string)
    (options : gmap string jsval) : M unit :=
  let* w := get in
  match transcription (managers w) with
  | Some h => guarded (start_backend_any nu env sid options h) log_message_then_rethrow
  | None => modify (set_isTranscribing true) >> startMockTranscription
  end.

Definition startTranscription_any (nu : NullishFailures) (env : Env)
    (options : gmap string jsval) : M (option Session) :=
  let* w := get in
  if isTranscribing w then throw AlreadyActive else
  initialize_any nu env >>
  let s := new_session env in
  modify (set_currentSession (Some s)) >>
  start_p2p_session_any nu env (session_id s) >>
  start_capture_any nu env (session_id s) options >>
  let* w := get in
  emit (SigSessionStarted (currentSession w)) >>
  ret (currentSession w).

(** No step of [initialize] fails without an error object. *)
Definition loads_with_error_objects (nu : NullishFailures) : Prop :=
  (forall p, nullish_require nu p = None) /\
  nullish_new_HyperdriveManager nu = None /\
  nullish_new_SessionDriveManager nu = None /\
  nullish_hyperdrive_initialize nu = None /\
  nullish_new_TranscriptionManager nu = None /\
  nullish_new_AIProviderManager nu = None /\
  nullish_ai_configure nu = None.

(** No step of either method does. *)
Definition error_objects_only (nu : NullishFailures) : Prop :=
  loads_with_error_objects nu /\
  (forall sid, nullish_createSessionDrive nu sid = None) /\
  nullish_transcription_start nu = None.

Definition no_nullish : NullishFailures :=
  {| nullish_require := fun _ => None;
     nullish_new_HyperdriveManager := None;
     nullish_new_SessionDriveManager := None;
     nullish_hyperdrive_initialize := None;
     nullish_new_TranscriptionManager := None;
     nullish_new_AIProviderManager := None;
     nullish_ai_configure := None;
     nullish_createSessionDrive := fun _ => None;
     nullish_transcription_start := None |}.


(** The session drive creation and the delegated start reject without a
    reason. *)
Definition drive_creation_rejects_undefined : NullishFailures :=
  {| nullish_require := fun _ => None;
     nullish_new_HyperdriveManager := None;
     nullish_new_SessionDriveManager := None;
     nullish_hyperdrive_initialize := None;
     nullish_new_TranscriptionManager := None;
     nullish_new_AIProviderManager := None;
     nullish_ai_configure := None;
     nullish_createSessionDrive := fun _ => Some UndefinedValue;
     nullish_transcription_start := None |}.

Definition start_rejects_undefined : NullishFailures :=
  {| nullish_require := fun _ => None;
     nullish_new_HyperdriveManager := None;
     nullish_new_SessionDriveManager := None;
     nullish_hyperdrive_initialize := None;
     nullish_new_TranscriptionManager := None;
     nullish_new_AIProviderManager := None;
     nullish_ai_configure := None;
     nullish_createSessionDrive := fun _ => None;
     nullish_transcription_start := Some UndefinedValue |}.

(** ** Histories of operations

    The public operations, the firing of a timer and the arrival of a raw
    backend event, run one after the other on the world.  An operation runs
    to completion before the next one starts. *)

Inductive Op : Type :=
| OpInitialize (env : Env)
| OpStartTranscription (env : Env) (options : gmap string jsval)
| OpStopTranscription (env : Env)
| OpSummarize (env : Env) (options : gmap string jsval)
| OpShareSession (env : Env) (sessionId : jsval)
| OpConnectToSession (env : Env) (key : jsval)
| OpOn (name : string) (callback : nat)
| OpDispose (env : Env)
| OpTick (now : Z) (tid : nat)
| OpBackendTranscription (data : RawTranscription).

Definition run_op (o : Op) (w : World) : World :=
  match o with
  | OpInitialize env => snd (initialize env w)
  | OpStartTranscription env options => snd (startTranscription env options w)
  | OpStopTranscription env => snd (stopTranscription env w)
  | OpSummarize env options => snd (summarize env options w)
  | OpShareSession env sessionId => snd (shareSession env sessionId w)
  | OpConnectToSession env key => snd (connectToSession env key w)
  | OpOn name callback => snd (on name callback w)
  | OpDispose env => snd (dispose env w)
  | OpTick now tid => snd (tick now tid w)
  | OpBackendTranscription data => snd (backend_transcription data w)
  end.

Definition run (ops : list Op) (w : World) : World :=
  fold_left (fun w o => run_op o w) ops w.

(** The timer [tid] fires once at each of the clock values [nows]. *)
Definition ticks (nows : list Z) (tid : nat) : list Op :=
  map (fun now => OpTick now tid) nows.

(** Timers fire one after the other, each with its handle, at the given
    clock values. *)
Definition firings (fs : list (Z * nat)) : list Op :=
  map (fun f => OpTick (fst f) (snd f)) fs.



Definition forwarders_of (w : World) : nat :=
  match transcription (managers w) with
  | Some h => forwarders h
  | None => 0
  end.

(** ** What decides the handles

    Whether a manager gets constructed, read off the answers of the
    environment for the steps of its own block. *)

Definition returns {A} (o : outcome A) : bool :=
  match o with Returns _ => true | Raises _ => false end.

Definition module_loads (env : Env) (base : jsval) (rel : string) : bool :=
  match path_join base rel with
  | Normal p => returns (require env p)
  | Throw _ => false
  end.

(** The backend path in force once [init_backendPath] has run. *)
Definition backendPath_in_force (env : Env) (cfg : gmap string jsval) : jsval :=
  if truthy (prop cfg "backendPath") then prop cfg "backendPath"
  else JStr (join_paths (dirname env) "..").

Definition p2p_enabled (cfg : gmap string jsval) : bool := truthy (prop cfg "p2p").

Definition drive_constructs (env : Env) (base : jsval) : bool :=
  module_loads env base "backend/HyperdriveManager"
  && module_loads env base "backend/SessionDriveManager"
  && returns (new_HyperdriveManager env).

Definition session_constructs (env : Env) (base : jsval) : bool :=
  drive_constructs env base && returns (new_SessionDriveManager env).

Definition transcription_constructs (env : Env) (base : jsval) : bool :=
  module_loads env base "src/electron/TranscriptionManager"
  && returns (new_TranscriptionManager env).

Definition ai_configured (cfg : gmap string jsval) : bool :=
  truthy (prop cfg "ai") && strict_ne_str (prop cfg "ai") "local".

Definition ai_constructs (env : Env) (base : jsval) : bool :=
  module_loads env base "src/electron/ai/AIProviderManager"
  && returns (new_AIProviderManager env).

(** ** Frames

    [frame R m]: whatever [m] does, the world it leaves is related by [R] to
    the world it started from. *)

Definition frame {A} (R : World -> World -> Prop) (m : M A) : Prop :=
  forall w, R w (snd (m w)).

(** [keeps f]: the observation [f] of the world is unchanged. *)
Definition keeps {T} (f : World -> T) (w w' : World) : Prop := f w' = f w.

(** Everything but the manager handles and the call history. *)
Definition quiet_part (w : World) :=
  (config w, isTranscribing w, currentSession w, listeners w,
   timers w, next_timer w, emitted w, delivered w).

(** Everything but the configuration, the manager handles, the signals and
    the call history: the session state proper. *)
Definition session_part (w : World) :=
  (isTranscribing w, currentSession w, listeners w, timers w, next_timer w).

(** The fields of a session record that are fixed when it is created. *)
Definition session_core (s : Session) :=
  (session_id s, startTime s, endTime s, participants s, status s).

(** Everything [start_p2p_session] leaves alone: all but the drive keys of
    the current session and the call history. *)
Definition p2p_session_part (w : World) :=
  (config w, isTranscribing w, session_core <$> currentSession w, managers w,
   listeners w, timers w, next_timer w, emitted w, delivered w).

(** The precondition of the one-shot guard of [initialize]: before the
    first initialisation there is no transcription handle. *)
Definition guard_inv (w : World) : Prop :=
  initialized (managers w) = false -> transcription (managers w) = None.

(** What a guarded block of the initialisation can do: complete, or throw
    the [TypeError] of its handler; it leaves everything but the handles
    and the call history alone. *)
Definition block_ok (w : World) (r : completion unit * World) : Prop :=
  (fst r = Normal tt \/ exists v, fst r = Throw (no_message v)) /\
  quiet_part (snd r) = quiet_part w /\
  initialized (managers (snd r)) = initialized (managers w).

(** The call history only grows. *)
Definition calls_grow (w w' : World) : Prop :=
  forall c, In c (calls w) -> In c (calls w').

(** ** Environments used in the examples *)

Definition module_not_found : thrown := Error "Cannot find module".

(** No backend module can be loaded. *)
Definition env_no_backend : Env :=
  {| dirname := "/app/sdk";
     require := fun _ => Raises module_not_found;
     new_HyperdriveManager := Returns tt;
     new_SessionDriveManager := Returns tt;
     hyperdrive_initialize := Returns tt;
     new_TranscriptionManager := Returns tt;
     new_AIProviderManager := Returns tt;
     ai_configure := Returns tt;
     createSessionDrive := fun _ => Raises module_not_found;
     transcription_start := Returns tt;
     stopRecording := Returns tt;
     getTranscript := Returns "";
     generateSummary := Returns (JStr "");
     session_shareSession := fun _ => Raises module_not_found;
     session_connectToSession := fun _ => Raises module_not_found;
     now_id := 1700000000000;
     now_start := 1700000000000;
     now_end := 1700000005000;
     random_base36 := "0.4fzyo82mvyr" |}.

(** Every backend module loads and every call succeeds. *)
Definition env_backend : Env :=
  {| dirname := "/app/sdk";
     require := fun _ => Returns tt;
     new_HyperdriveManager := Returns tt;
     new_SessionDriveManager := Returns tt;
     hyperdrive_initialize := Returns tt;
     new_TranscriptionManager := Returns tt;
     new_AIProviderManager := Returns tt;
     ai_configure := Returns tt;
     createSessionDrive := fun _ =>
       Returns (JObj (<["driveKey" := JStr "dk"]> (<["discoveryKey" := JStr "dsk"]> ∅)));
     transcription_start := Returns tt;
     stopRecording := Returns tt;
     getTranscript := Returns "transcript";
     generateSummary := Returns (JStr "summary");
     session_shareSession := fun _ => Returns (JStr "share");
     session_connectToSession := fun _ => Returns (JStr "info");
     now_id := 1700000000000;
     now_start := 1700000000000;
     now_end := 1700000005000;
     random_base36 := "0.4fzyo82mvyr" |}.

Definition backend_error : thrown := Error "audio device unavailable".

(** The backend loads, but its [startTranscription] rejects. *)
Definition env_start_fails : Env :=
  {| dirname := dirname env_backend;
     require := require env_backend;
     new_HyperdriveManager := Returns tt;
     new_SessionDriveManager := Returns tt;
     hyperdrive_initialize := Returns tt;
     new_TranscriptionManager := Returns tt;
     new_AIProviderManager := Returns tt;
     ai_configure := Returns tt;
     createSessionDrive := createSessionDrive env_backend;
     transcription_start := Raises backend_error;
     stopRecording := Returns tt;
     getTranscript := Returns "transcript";
     generateSummary := Returns (JStr "summary");
     session_shareSession := session_shareSession env_backend;
     session_connectToSession := session_connectToSession env_backend;
     now_id := 1700000009000;
     now_start := 1700000009001;
     now_end := 1700000010000;
     random_base36 := "0.k3x9q1z7abc" |}.

(** The world right after [new LucidTalk()] with no argument. *)
Definition world0 : World :=
  {| config := default_config; isTranscribing := false; currentSession := None;
     managers := empty_managers; listeners := []; timers := ∅;
     next_timer := 0; emitted := []; delivered := []; calls := [] |}.

(** A second start without backend, half a second after [env_no_backend]
    has stopped. *)
Definition env_restart : Env :=
  {| dirname := dirname env_no_backend;
     require := require env_no_backend;
     new_HyperdriveManager := Returns tt;
     new_SessionDriveManager := Returns tt;
     hyperdrive_initialize := Returns tt;
     new_TranscriptionManager := Returns tt;
     new_AIProviderManager := Returns tt;
     ai_configure := Returns tt;
     createSessionDrive := createSessionDrive env_no_backend;
     transcription_start := Returns tt;
     stopRecording := Returns tt;
     getTranscript := Returns "";
     generateSummary := Returns (JStr "");
     session_shareSession := session_shareSession env_no_backend;
     session_connectToSession := session_connectToSession env_no_backend;
     now_id := 1700000005500;
     now_start := 1700000005500;
     now_end := 1700000020000;
     random_base36 := "0.9d2kq7xw1ab" |}.


(** A caller that enables P2P, and the world after its construction. *)
Definition config_p2p : gmap string jsval := <["p2p" := JBool true]> ∅.

Definition world_p2p : World := set_config (merge_config config_p2p) world0.



(** The manager handles as capabilities: present or absent. *)
Definition handles (w : World) : bool * bool * bool * bool :=
  (hyperdrive (managers w), session (managers w),
   match transcription (managers w) with Some _ => true | None => false end,
   ai (managers w)).

(** What an operation that is neither [initialize] nor [startTranscription]
    leaves alone. *)
Definition setup_part (w : World) := (config w, managers w).

Definition activity_part (w : World) := (isTranscribing w, currentSession w).

(** [undefined] or [null]. *)
Definition nullish (v : jsval) : bool :=
  match v with JUndefined | JNull => true | _ => false end.

(** The stored session, if any, is either running (status ['active'], no
    end time) or over (status ['ended'], end time set); and an active
    orchestrator has a running session. *)
Definition session_running (s : Session) : Prop :=
  status s = "active" /\ endTime s = None.

Definition session_over (s : Session) : Prop :=
  status s = "ended" /\ is_Some (endTime s).

Definition lifecycle_inv (w : World) : Prop :=
  (forall s, currentSession w = Some s -> session_running s \/ session_over s) /\
  (isTranscribing w = true -> exists s, currentSession w = Some s /\ session_running s).

(** A handle exists only for a feature the configuration [c0] asks for,
    and the configuration still agrees with [c0] outside [backendPath]. *)
Definition configured_inv (c0 : gmap string jsval) (w : World) : Prop :=
  (forall k, k <> "backendPath" -> prop (config w) k = prop c0 k) /\
  (ai (managers w) = true -> ai_configured c0 = true) /\
  (session (managers w) = true -> p2p_enabled c0 = true) /\
  (hyperdrive (managers w) = true -> p2p_enabled c0 = true).

(** The backend is running, but its [stopRecording] rejects. *)
Definition env_stop_fails : Env :=
  {| dirname := dirname env_backend;
     require := require env_backend;
     new_HyperdriveManager := Returns tt;
     new_SessionDriveManager := Returns tt;
     hyperdrive_initialize := Returns tt;
     new_TranscriptionManager := Returns tt;
     new_AIProviderManager := Returns tt;
     ai_configure := Returns tt;
     createSessionDrive := createSessionDrive env_backend;
     transcription_start := Returns tt;
     stopRecording := Raises backend_error;
     getTranscript := Returns "transcript";
     generateSummary := Returns (JStr "summary");
     session_shareSession := session_shareSession env_backend;
     session_connectToSession := session_connectToSession env_backend;
     now_id := 1700000000000;
     now_start := 1700000000000;
     now_end := 1700000005000;
     random_base36 := "0.4fzyo82mvyr" |}.

(** The value of [v.k] where the read does not raise. *)
Definition member_value (v : jsval) (k : string) : jsval :=
  match get_member v k with
  | Normal x => x
  | Throw _ => JUndefined
  end.




(** * Properties *)

(** ** Construction and validation *)

Lemma lookup_merge_config (cfg : gmap string jsval) (k : string) :
  merge_config cfg !! k =
  match cfg !! k with
  | Some v => Some v
  | None => default_config !! k
  end.
Proof.
  unfold merge_config. destruct (cfg !! k) as [v|] eqn:Hk.
  - by apply lookup_union_Some_l.
  - by rewrite lookup_union_r.
Qed.

Lemma prop_merge_config (cfg : gmap string jsval) (k : string) :
  prop (merge_config cfg) k =
  match cfg !! k with
  | Some v => v
  | None => prop default_config k
  end.
Proof. unfold prop. rewrite lookup_merge_config. by destruct (cfg !! k). Qed.

Lemma merge_config_empty : merge_config ∅ = default_config.
Proof. unfold merge_config. apply (left_id_L ∅ (∪)). Qed.

(** Whatever a computed read raises is a [TypeError]. *)
Lemma read_computed_throws (base key : jsval) (e : thrown) :
  read_computed base key = Throw e -> exists msg, e = TypeError msg.
Proof.
  unfold read_computed.
  destruct base; try (intros [= <-]; eauto).
  all: destruct (to_property_key key) as [k|e'] eqn:Hk; [discriminate|];
    intros [= <-]; unfold to_property_key in Hk;
    destruct key as [| |[]| | |]; try discriminate;
    destruct (own_toString _); [injection Hk as <-; eauto | discriminate].
Qed.

Lemma validateConfig_privacy (cfg : gmap string jsval) :
  validateConfig cfg = Throw ConfigurationError <->
  truthy (prop cfg "privacy") = false.
Proof.
  unfold validateConfig.
  destruct (truthy (prop cfg "privacy")); simpl.
  - split; [|discriminate].
    destruct (truthy (prop cfg "ai")); [|discriminate].
    intros H. apply read_computed_throws in H as [msg H]. discriminate H.
  - by split.
Qed.

Lemma constructor_throws (config : option (gmap string jsval)) (e : thrown) :
  constructor config = Throw e <->
  validateConfig (merge_config (default ∅ config)) = Throw e.
Proof.
  unfold constructor.
  destruct (validateConfig _) as [[]|e']; split; intros H; congruence.
Qed.

(** C8: constructing with an empty or omitted configuration succeeds and
    the stored configuration is exactly the defaults (privacy 'local-only',
    p2p false, ai 'local', apiKeys {}, storagePath './sessions', backendPath
    null); whenever construction succeeds, each field the caller supplies
    replaces the default of the same name and every other field keeps its
    default. *)
Theorem constructor_defaults_and_overrides :
  (exists w : World,
      constructor None = Normal w /\ constructor (Some ∅) = Normal w /\
      config w = default_config /\
      config w !! "privacy" = Some (JStr "local-only") /\
      config w !! "p2p" = Some (JBool false) /\
      config w !! "ai" = Some (JStr "local") /\
      config w !! "apiKeys" = Some (JObj ∅) /\
      config w !! "storagePath" = Some (JStr "./sessions") /\
      config w !! "backendPath" = Some JNull /\
      isTranscribing w = false /\ currentSession w = None /\
      managers w = empty_managers) /\
  (forall (cfg : gmap string jsval) (w : World),
      constructor (Some cfg) = Normal w ->
      forall k : string,
        config w !! k = match cfg !! k with
                        | Some v => Some v
                        | None => default_config !! k
                        end).
Proof.
  split.
  - eexists. split; [|split].
    + unfold constructor. simpl. rewrite merge_config_empty. reflexivity.
    + unfold constructor. simpl. rewrite merge_config_empty. reflexivity.
    + simpl. repeat split; reflexivity.
  - intros cfg w H k. unfold constructor in H. simpl in H.
    destruct (validateConfig (merge_config cfg)); [|discriminate].
    injection H as <-. simpl. apply lookup_merge_config.
Qed.

Lemma constructor_defaults_and_overrides_witness :
  exists w : World,
    constructor (Some (<["p2p" := JBool true]> ∅)) = Normal w /\
    config w !! "p2p" = Some (JBool true) /\
    config w !! "privacy" = Some (JStr "local-only").
Proof.
  assert (Hc : exists w, constructor (Some (<["p2p" := JBool true]> ∅)) = Normal w)
    by (vm_compute; eauto).
  destruct Hc as [w Hw]. exists w. split; [exact Hw|].
  split; rewrite (proj2 constructor_defaults_and_overrides _ _ Hw _);
    vm_compute; reflexivity.
Defined.

(** C1, as stated, fails: the empty configuration has no [privacy] field
    and construction succeeds, because the default ['local-only'] fills
    it in before the check. *)
Lemma constructor_without_privacy_succeeds :
  (∅ : gmap string jsval) !! "privacy" = None /\
  constructor (Some ∅) <> Throw ConfigurationError /\
  exists w : World, constructor (Some ∅) = Normal w.
Proof.
  split; [reflexivity|]. split.
  - rewrite constructor_throws, validateConfig_privacy. simpl.
    rewrite merge_config_empty. discriminate.
  - eexists. unfold constructor. simpl. rewrite merge_config_empty. reflexivity.
Qed.

(** C1, amended: construction fails with the configuration error exactly
    when the caller supplies a [privacy] field whose value is falsy
    (undefined, null, false, 0, NaN or the empty string); a configuration
    without a [privacy] field takes the default and never fails the
    privacy check. *)
Theorem constructor_privacy_check (cfg : gmap string jsval) :
  (constructor (Some cfg) = Throw ConfigurationError <->
   exists v : jsval, cfg !! "privacy" = Some v /\ truthy v = false) /\
  (cfg !! "privacy" = None -> constructor (Some cfg) <> Throw ConfigurationError).
Proof.
  assert (Hiff : constructor (Some cfg) = Throw ConfigurationError <->
                 exists v : jsval, cfg !! "privacy" = Some v /\ truthy v = false).
  { rewrite constructor_throws, validateConfig_privacy. simpl.
    rewrite prop_merge_config.
    destruct (cfg !! "privacy") as [v|] eqn:Hp.
    - split; [eauto|]. by intros [v' [[= <-] Hv]].
    - split; [discriminate|]. by intros [v' [? _]]. }
  split; [exact Hiff|].
  intros Hnone Hthrow. apply Hiff in Hthrow as [v [Hv _]]. congruence.
Qed.

Lemma constructor_privacy_check_witness :
  constructor (Some (<["privacy" := JStr ""]> ∅)) = Throw ConfigurationError /\
  constructor (Some (<["ai" := JStr "openai"]> ∅)) <> Throw ConfigurationError.
Proof.
  split.
  - apply (proj1 (constructor_privacy_check (<["privacy" := JStr ""]> ∅))).
    exists (JStr ""). split; vm_compute; reflexivity.
  - apply (proj2 (constructor_privacy_check (<["ai" := JStr "openai"]> ∅))).
    vm_compute; reflexivity.
Defined.

Lemma constructor_world0 : constructor None = Normal world0.
Proof. unfold constructor. simpl. rewrite merge_config_empty. reflexivity. Qed.

Example mock_session_id :
  generateSessionId env_no_backend = "session_1700000000000_4fzyo82mv".
Proof. vm_compute. reflexivity. Qed.

Example mock_start_then_tick :
  emitted (run [OpStartTranscription env_no_backend ∅; OpTick 1700000003000 0] world0)
  = [ SigInitialized;
      SigSessionStarted (Some (new_session env_no_backend));
      SigTranscription (mock_event 0 1700000003000) ].
Proof. vm_compute. reflexivity. Qed.

(** ** Reasoning about the monad *)

Section FrameRules.
Context (R : World -> World -> Prop) `{!PreOrder R}.

Lemma frame_ret {A} (a : A) : frame R (ret a).
Proof. intros w. reflexivity. Qed.

Lemma frame_throw {A} (e : thrown) : frame R (@throw A e).
Proof. intros w. reflexivity. Qed.

Lemma frame_get : frame R get.
Proof. intros w. reflexivity. Qed.

Lemma frame_lift {A} (c : completion A) : frame R (lift c).
Proof. intros w. reflexivity. Qed.

Lemma frame_bind {A B} (m : M A) (k : A -> M B) :
  frame R m -> (forall a, frame R (k a)) -> frame R (bind m k).
Proof.
  intros Hm Hk w. unfold bind. specialize (Hm w).
  destruct (m w) as [[a|e] w1]; simpl in *; [|done].
  etrans; [exact Hm|]. apply Hk.
Qed.

Lemma frame_try_catch {A} (m : M A) (h : thrown -> M A) :
  frame R m -> (forall e, frame R (h e)) -> frame R (try_catch m h).
Proof.
  intros Hm Hh w. unfold try_catch. specialize (Hm w).
  destruct (m w) as [[a|e] w1]; simpl in *; [done|].
  etrans; [exact Hm|]. apply Hh.
Qed.

Lemma frame_modify (f : World -> World) :
  (forall w, R w (f w)) -> frame R (modify f).
Proof. intros Hf w. apply Hf. Qed.

Lemma frame_call {A} (c : Call) (o : outcome A) :
  (forall w, R w (record_call c w)) -> frame R (call c o).
Proof. intros Hc w. apply Hc. Qed.

Lemma frame_repeatM (n : nat) (m : M unit) :
  frame R m -> frame R (repeatM n m).
Proof.
  intros Hm. induction n as [|n IH]; simpl.
  - apply frame_ret.
  - apply frame_bind; auto.
Qed.

End FrameRules.

#[global] Instance keeps_preorder {T} (f : World -> T) : PreOrder (keeps f).
Proof.
  split.
  - intros w. reflexivity.
  - intros w1 w2 w3 H12 H23. unfold keeps in *. congruence.
Qed.

(** Decompose a monadic term along its structure, leaving one goal per
    primitive update. *)
Ltac frame_step :=
  lazymatch goal with
  | |- PreOrder _ => typeclasses eauto
  | |- forall _, _ => intros ?
  | |- frame _ (bind _ _) => apply frame_bind
  | |- frame _ (try_catch _ _) => apply frame_try_catch
  | |- frame _ (ret _) => apply frame_ret
  | |- frame _ (throw _) => apply frame_throw
  | |- frame _ get => apply frame_get
  | |- frame _ (lift _) => apply frame_lift
  | |- frame _ (modify _) => apply frame_modify
  | |- frame _ (call _ _) => apply frame_call
  | |- frame _ (emit _) => apply frame_modify
  | |- frame _ (repeatM _ _) => apply frame_repeatM
  | |- frame _ (warn_and_continue _) => apply frame_ret
  | |- frame _ (log_and_rethrow _) => apply frame_throw
  | |- frame _ (log_message_and_rethrow _) => apply frame_throw
  | |- frame _ (if ?b then _ else _) => destruct b
  | |- frame _ (match ?x with _ => _ end) => destruct x
  end.

Ltac frame_auto := repeat frame_step; try (unfold keeps; reflexivity).

(** A guarded block whose handler only warns always completes normally. *)
Lemma try_warn_normal (m : M unit) (w : World) :
  fst (try_catch m warn_and_continue w) = Normal tt.
Proof.
  unfold try_catch. destruct (m w) as [[[]|e] w1]; reflexivity.
Qed.

(** ** Initialisation *)

Lemma load_p2p_quiet (env : Env) : frame (keeps quiet_part) (load_p2p env).
Proof. unfold load_p2p, update_managers. frame_auto. Qed.

Lemma load_transcription_quiet (env : Env) :
  frame (keeps quiet_part) (load_transcription env).
Proof. unfold load_transcription, update_managers. frame_auto. Qed.

Lemma load_ai_quiet (env : Env) : frame (keeps quiet_part) (load_ai env).
Proof. unfold load_ai, update_managers. frame_auto. Qed.

Lemma bind_normal {A B} (m : M A) (k : A -> M B) (w : World) (a : A) :
  fst (m w) = Normal a -> bind m k w = k a (snd (m w)).
Proof. unfold bind. destruct (m w) as [[a'|e] w1]; simpl; congruence. Qed.

Lemma init_backendPath_run (env : Env) (w : World) :
  fst (init_backendPath env w) = Normal tt /\
  prop (config (snd (init_backendPath env w))) "backendPath"
    = backendPath_in_force env (config w) /\
  (forall k, k <> "backendPath" ->
      prop (config (snd (init_backendPath env w))) k = prop (config w) k) /\
  managers (snd (init_backendPath env w)) = managers w /\
  session_part (snd (init_backendPath env w)) = session_part w /\
  emitted (snd (init_backendPath env w)) = emitted w /\
  delivered (snd (init_backendPath env w)) = delivered w /\
  calls (snd (init_backendPath env w)) = calls w.
Proof.
  unfold init_backendPath, backendPath_in_force, bind, get, modify, ret. simpl.
  destruct (truthy (prop (config w) "backendPath")); simpl.
  - repeat split; reflexivity.
  - repeat split; try reflexivity.
    + unfold prop. by rewrite lookup_insert_eq.
    + intros k Hk. unfold prop. by rewrite lookup_insert_ne.
Qed.

Lemma init_p2p_quiet (env : Env) : frame (keeps quiet_part) (init_p2p env).
Proof.
  unfold init_p2p. frame_auto. apply load_p2p_quiet.
Qed.

Lemma init_transcription_quiet (env : Env) :
  frame (keeps quiet_part) (init_transcription env).
Proof.
  unfold init_transcription. frame_auto. apply load_transcription_quiet.
Qed.

Lemma init_ai_quiet (env : Env) : frame (keeps quiet_part) (init_ai env).
Proof.
  unfold init_ai. frame_auto. apply load_ai_quiet.
Qed.

Lemma init_p2p_normal (env : Env) (w : World) : fst (init_p2p env w) = Normal tt.
Proof.
  unfold init_p2p, bind, get. simpl.
  destruct (truthy _); [apply try_warn_normal | reflexivity].
Qed.

Lemma init_ai_normal (env : Env) (w : World) : fst (init_ai env w) = Normal tt.
Proof.
  unfold init_ai, bind, get. simpl.
  destruct (_ && _); [apply try_warn_normal | reflexivity].
Qed.

(** The P2P block decides the drive and session handles, and nothing else
    of the managers. *)
Lemma init_p2p_managers (env : Env) (w : World) :
  let m := managers w in
  let m' := managers (snd (init_p2p env w)) in
  let base := prop (config w) "backendPath" in
  transcription m' = transcription m /\ ai m' = ai m /\
  initialized m' = initialized m /\
  hyperdrive m' = (if p2p_enabled (config w) && drive_constructs env base
                   then true else hyperdrive m) /\
  session m' = (if p2p_enabled (config w) && session_constructs env base
                then true else session m).
Proof.
  unfold init_p2p, p2p_enabled, session_constructs, drive_constructs, module_loads.
  unfold bind, get. simpl.
  destruct (truthy (prop (config w) "p2p")); simpl; [|done].
  unfold try_catch, load_p2p, bind, get, lift, call, update_managers, modify. simpl.
  destruct (path_join _ "backend/HyperdriveManager") as [p1|e1]; simpl; [|done].
  destruct (require env p1) as [[]|?]; simpl; [|done].
  destruct (path_join _ "backend/SessionDriveManager") as [p2|e2]; simpl; [|done].
  destruct (require env p2) as [[]|?]; simpl; [|done].
  destruct (new_HyperdriveManager env) as [[]|?]; simpl; [|done].
  destruct (new_SessionDriveManager env) as [[]|?]; simpl; [|done].
  destruct (hyperdrive_initialize env) as [[]|?]; simpl; done.
Qed.

(** The transcription block decides the transcription handle from its own
    steps alone. *)
Lemma init_transcription_managers (env : Env) (w : World) :
  let m := managers w in
  let m' := managers (snd (init_transcription env w)) in
  let base := prop (config w) "backendPath" in
  hyperdrive m' = hyperdrive m /\ session m' = session m /\ ai m' = ai m /\
  initialized m' = initialized m /\
  transcription m' = (if transcription_constructs env base
                      then Some {| forwarders := 0 |} else transcription m).
Proof.
  unfold init_transcription, transcription_constructs, module_loads.
  unfold try_catch, load_transcription, bind, get, lift, call, update_managers, modify.
  simpl.
  destruct (path_join _ _) as [p|e]; simpl; [|done].
  destruct (require env p) as [[]|?]; simpl; [|done].
  destruct (new_TranscriptionManager env) as [[]|?]; simpl; done.
Qed.

(** The AI block decides the AI handle from its own steps alone. *)
Lemma init_ai_managers (env : Env) (w : World) :
  let m := managers w in
  let m' := managers (snd (init_ai env w)) in
  let base := prop (config w) "backendPath" in
  hyperdrive m' = hyperdrive m /\ session m' = session m /\
  transcription m' = transcription m /\ initialized m' = initialized m /\
  ai m' = (if ai_configured (config w) && ai_constructs env base
           then true else ai m).
Proof.
  unfold init_ai, ai_configured, ai_constructs, module_loads.
  unfold bind, get. simpl.
  destruct (truthy _ && strict_ne_str _ _); simpl; [|done].
  unfold try_catch, load_ai, bind, get, lift, call, update_managers, modify. simpl.
  destruct (path_join _ _) as [p|e]; simpl; [|done].
  destruct (require env p) as [[]|?]; simpl; [|done].
  destruct (new_AIProviderManager env) as [[]|?]; simpl; [|done].
  destruct (ai_configure env) as [[]|?]; simpl; done.
Qed.

#[global] Instance calls_grow_preorder : PreOrder calls_grow.
Proof.
  split.
  - intros w c Hc. exact Hc.
  - intros w1 w2 w3 H12 H23 c Hc. auto.
Qed.

Ltac calls_grow_leaf :=
  let c := fresh "c" in let Hc := fresh "Hc" in
  intros c Hc; simpl; try (apply in_or_app; left); exact Hc.

Lemma init_ai_calls_grow (env : Env) : frame calls_grow (init_ai env).
Proof.
  unfold init_ai, load_ai, update_managers. frame_auto; calls_grow_leaf.
Qed.

(** The transcription block always reaches its module loader when the
    backend path is a string. *)
Lemma init_transcription_attempt (env : Env) (w : World) (p : string) :
  path_join (prop (config w) "backendPath") "src/electron/TranscriptionManager" = Normal p ->
  In (CallRequire p) (calls (snd (init_transcription env w))).
Proof.
  intros Hp.
  assert (H1 : In (CallRequire p) (calls (record_call (CallRequire p) w))).
  { simpl. apply in_or_app. right. by left. }
  unfold init_transcription, try_catch, load_transcription, bind, get, lift, call,
    update_managers, modify, warn_and_continue, ret.
  cbv beta iota. cbn [fst snd]. rewrite Hp. cbv beta iota.
  destruct (require env p) as [[]|?]; cbv beta iota; [|exact H1].
  destruct (new_TranscriptionManager env) as [[]|?]; cbv beta iota; simpl;
    apply in_or_app; left; apply in_or_app; right; by left.
Qed.

Lemma init_ai_attempt (env : Env) (w : World) (p : string) :
  ai_configured (config w) = true ->
  path_join (prop (config w) "backendPath") "src/electron/ai/AIProviderManager" = Normal p ->
  In (CallRequire p) (calls (snd (init_ai env w))).
Proof.
  intros Hc Hp.
  unfold ai_configured in Hc.
  unfold init_ai, try_catch, load_ai, bind, get, lift, call,
    update_managers, modify, warn_and_continue, ret.
  cbv beta iota. cbn [fst snd]. rewrite Hc, Hp. cbv beta iota.
  destruct (require env p) as [[]|?]; cbv beta iota;
    [|simpl; apply in_or_app; right; by left].
  destruct (new_AIProviderManager env) as [[]|?]; cbv beta iota;
    [|simpl; apply in_or_app; left; apply in_or_app; right; by left].
  destruct (ai_configure env) as [[]|?]; cbv beta iota; simpl;
    apply in_or_app; left; apply in_or_app; left; apply in_or_app; right; by left.
Qed.

Lemma initialize_again (env : Env) (w : World) :
  initialized (managers w) = true -> initialize env w = (Normal tt, w).
Proof. intros H. unfold initialize, bind, get. simpl. by rewrite H. Qed.

(** The first run of [initialize], step by step. *)
Lemma initialize_first (env : Env) (w : World) :
  initialized (managers w) = false ->
  let w' := snd (initialize env w) in
  let m := managers w in
  let m' := managers w' in
  let base := backendPath_in_force env (config w) in
  fst (initialize env w) = Normal tt /\
  session_part w' = session_part w /\
  emitted w' = (emitted w ++ [SigInitialized])%list /\
  delivered w' = (delivered w
                  ++ map (fun cb => (cb, SigInitialized))
                         (listeners_for "initialized" (listeners w)))%list /\
  initialized m' = true /\
  hyperdrive m' = (if p2p_enabled (config w) && drive_constructs env base
                   then true else hyperdrive m) /\
  session m' = (if p2p_enabled (config w) && session_constructs env base
                then true else session m) /\
  transcription m' = (if transcription_constructs env base
                      then Some {| forwarders := 0 |} else transcription m) /\
  ai m' = (if ai_configured (config w) && ai_constructs env base
           then true else ai m) /\
  (forall k, k <> "backendPath" -> prop (config w') k = prop (config w) k) /\
  (forall p, path_join base "src/electron/TranscriptionManager" = Normal p ->
             In (CallRequire p) (calls w')) /\
  (ai_configured (config w) = true ->
   forall p, path_join base "src/electron/ai/AIProviderManager" = Normal p ->
             In (CallRequire p) (calls w')).
Proof.
  intros Hinit w' m m' base.
  destruct (init_backendPath_run env w) as (N1 & Hbase & Hcfg & Hm1 & Hs1 & He1 & Hd1 & _).
  remember (snd (init_backendPath env w)) as w1 eqn:E1.
  pose proof (init_p2p_normal env w1) as N2.
  pose proof (init_p2p_quiet env w1) as Q2.
  pose proof (init_p2p_managers env w1) as M2.
  remember (snd (init_p2p env w1)) as w2 eqn:E2.
  pose proof (try_warn_normal (load_transcription env) w2) as N3.
  pose proof (init_transcription_quiet env w2) as Q3.
  pose proof (init_transcription_managers env w2) as M3.
  fold (init_transcription env) in N3.
  pose proof (init_transcription_attempt env w2) as A3.
  remember (snd (init_transcription env w2)) as w3 eqn:E3.
  pose proof (init_ai_normal env w3) as N4.
  pose proof (init_ai_quiet env w3) as Q4.
  pose proof (init_ai_managers env w3) as M4.
  pose proof (init_ai_attempt env w3) as A4.
  pose proof (init_ai_calls_grow env w3) as G4.
  remember (snd (init_ai env w3)) as w4 eqn:E4.
  assert (Hrun : initialize env w
                 = (Normal tt,
                    record_emit SigInitialized
                      (set_managers (set_initialized true (managers w4)) w4))).
  { unfold initialize. unfold bind at 1. unfold get at 1. cbv beta iota.
    rewrite Hinit.
    rewrite (bind_normal _ _ _ _ N1), <- E1.
    rewrite (bind_normal _ _ _ _ N2), <- E2.
    rewrite (bind_normal _ _ _ _ N3), <- E3.
    rewrite (bind_normal _ _ _ _ N4), <- E4.
    reflexivity. }
  clear E1 E2 E3 E4 N1 N2 N3 N4.
  subst w' m m'. rewrite Hrun. clear Hrun.
  cbn [fst snd record_emit set_managers set_initialized managers emitted delivered
       listeners config initialized hyperdrive session transcription ai signal_name
       isTranscribing currentSession timers next_timer session_part].
  unfold keeps, quiet_part in Q2, Q3, Q4. unfold session_part in Hs1.
  injection Q2 as C2 T2 S2 L2 I2 X2 E2 D2.
  injection Q3 as C3 T3 S3 L3 I3 X3 E3 D3.
  injection Q4 as C4 T4 S4 L4 I4 X4 E4 D4.
  injection Hs1 as T1 S1 L1 I1 X1.
  cbv zeta in M2, M3, M4.
  destruct M2 as (M2t & M2a & M2i & M2h & M2s).
  destruct M3 as (M3h & M3s & M3a & M3i & M3t).
  destruct M4 as (M4h & M4s & M4t & M4i & M4a).
  assert (Hp2p : p2p_enabled (config w1) = p2p_enabled (config w)).
  { unfold p2p_enabled. by rewrite Hcfg. }
  assert (Hai : ai_configured (config w1) = ai_configured (config w)).
  { unfold ai_configured. by rewrite Hcfg. }
  split; [reflexivity|].
  split; [unfold session_part; simpl; congruence|].
  split; [simpl; congruence|].
  split; [rewrite D4, D3, D2, Hd1, L4, L3, L2, L1; reflexivity|].
  split; [reflexivity|].
  split; [rewrite M4h, M3h, M2h, Hp2p, Hbase, Hm1; reflexivity|].
  split; [rewrite M4s, M3s, M2s, Hp2p, Hbase, Hm1; reflexivity|].
  split; [rewrite M4t, M3t, C2, Hbase, M2t, Hm1; reflexivity|].
  split; [rewrite M4a, C3, C2, Hai, Hbase, M3a, M2a, Hm1; reflexivity|].
  split; [intros k Hk; rewrite C4, C3, C2; by apply Hcfg|].
  split.
  - intros p Hp. apply G4, A3. by rewrite C2, Hbase.
  - intros Hc p Hp. apply A4.
    + by rewrite C3, C2, Hai.
    + by rewrite C3, C2, Hbase.
Qed.


(** ** Initialisation when a failure may carry no error object *)

(** With collaborators that fail with error objects only, the guarded
    blocks and the method are those given first. *)
Lemma init_p2p_any_objects (nu : NullishFailures) (env : Env) (w : World) :
  loads_with_error_objects nu ->
  init_p2p_any nu env w = init_p2p env w.
Proof.
  intros (Hr & Hh & Hs & Hi & _).
  unfold init_p2p_any, init_p2p, bind, get. cbv beta iota.
  destruct (truthy _); [|reflexivity].
  unfold guarded, try_catch,
    load_p2p_any, load_p2p, bind_t, bind, inside, step, call,
    get, lift, update_managers, modify, warn_message, warn_and_continue, ret.
  cbv beta iota.
  destruct (path_join _ "backend/HyperdriveManager") as [p1|e]; cbv beta iota; [|reflexivity].
  rewrite Hr.
  destruct (require env p1) as [[]|?]; cbv beta iota; [|reflexivity].
  destruct (path_join _ "backend/SessionDriveManager") as [p2|e]; cbv beta iota; [|reflexivity].
  rewrite Hr, Hh, Hs, Hi.
  destruct (require env p2) as [[]|?]; cbv beta iota; [|reflexivity].
  destruct (new_HyperdriveManager env) as [[]|?]; cbv beta iota; [|reflexivity].
  destruct (new_SessionDriveManager env) as [[]|?]; cbv beta iota; [|reflexivity].
  destruct (hyperdrive_initialize env) as [[]|?]; reflexivity.
Qed.

Lemma init_transcription_any_objects (nu : NullishFailures) (env : Env) (w : World) :
  loads_with_error_objects nu ->
  init_transcription_any nu env w = init_transcription env w.
Proof.
  intros (Hr & _ & _ & _ & Ht & _).
  unfold init_transcription_any, init_transcription, guarded, try_catch,
    load_transcription_any, load_transcription, bind_t, bind, inside, step, call,
    get, lift, update_managers, modify, warn_message, warn_and_continue, ret.
  cbv beta iota.
  destruct (path_join _ _) as [p|e]; cbv beta iota; [|reflexivity].
  rewrite Hr, Ht.
  destruct (require env p) as [[]|?]; cbv beta iota; [|reflexivity].
  destruct (new_TranscriptionManager env) as [[]|?]; reflexivity.
Qed.

Lemma init_ai_any_objects (nu : NullishFailures) (env : Env) (w : World) :
  loads_with_error_objects nu ->
  init_ai_any nu env w = init_ai env w.
Proof.
  intros (Hr & _ & _ & _ & _ & Ha & Hc).
  unfold init_ai_any, init_ai, bind, get. cbv beta iota.
  destruct (truthy _ && _); [|reflexivity].
  unfold guarded, try_catch,
    load_ai_any, load_ai, bind_t, bind, inside, step, call,
    get, lift, update_managers, modify, warn_message, warn_and_continue, ret.
  cbv beta iota.
  destruct (path_join _ _) as [p|e]; cbv beta iota; [|reflexivity].
  rewrite Hr, Ha, Hc.
  destruct (require env p) as [[]|?]; cbv beta iota; [|reflexivity].
  destruct (new_AIProviderManager env) as [[]|?]; cbv beta iota; [|reflexivity].
  destruct (ai_configure env) as [[]|?]; reflexivity.
Qed.

Lemma initialize_any_objects (nu : NullishFailures) (env : Env) (w : World) :
  loads_with_error_objects nu ->
  initialize_any nu env w = initialize env w.
Proof.
  intros Hnu.
  unfold initialize_any, initialize, bind, get. cbv beta iota.
  destruct (initialized (managers w)); [reflexivity|].
  destruct (init_backendPath env w) as [[[]|e] w1]; [|reflexivity].
  rewrite (init_p2p_any_objects nu env w1 Hnu).
  destruct (init_p2p env w1) as [[[]|e] w2]; [|reflexivity].
  rewrite (init_transcription_any_objects nu env w2 Hnu).
  destruct (init_transcription env w2) as [[[]|e] w3]; [|reflexivity].
  rewrite (init_ai_any_objects nu env w3 Hnu).
  reflexivity.
Qed.

Lemma initialize_any_again (nu : NullishFailures) (env : Env) (w : World) :
  initialized (managers w) = true -> initialize_any nu env w = (Normal tt, w).
Proof. intros H. unfold initialize_any, bind, get. simpl. by rewrite H. Qed.

(** Case analysis along a [try] body, innermost scrutinee first. *)
Ltac split_cases :=
  repeat match goal with
         | |- context [match ?x with _ => _ end] =>
             lazymatch x with
             | context [match _ with _ => _ end] => fail
             | _ => destruct x; cbv beta iota
             end
         end.

Ltac block_cases :=
  cbv beta iota; split_cases; cbn [fst snd];
  repeat match goal with u : unit |- _ => destruct u end;
  (split; [eauto|split; reflexivity]).

Lemma init_p2p_any_block (nu : NullishFailures) (env : Env) (w : World) :
  block_ok w (init_p2p_any nu env w).
Proof.
  unfold block_ok, init_p2p_any, bind, get. cbv beta iota.
  destruct (truthy _); [|cbn [fst snd]; split; [eauto|split; reflexivity]].
  unfold guarded, load_p2p_any, bind_t,
    inside, step, get, lift, update_managers, modify, warn_message, ret, throw.
  block_cases.
Qed.

Lemma init_transcription_any_block (nu : NullishFailures) (env : Env) (w : World) :
  block_ok w (init_transcription_any nu env w).
Proof.
  unfold block_ok, init_transcription_any, guarded, load_transcription_any, bind_t,
    inside, step, get, lift, update_managers, modify, warn_message, ret, throw.
  block_cases.
Qed.

Lemma init_ai_any_block (nu : NullishFailures) (env : Env) (w : World) :
  block_ok w (init_ai_any nu env w).
Proof.
  unfold block_ok, init_ai_any, bind, get. cbv beta iota.
  destruct (truthy _ && _); [|cbn [fst snd]; split; [eauto|split; reflexivity]].
  unfold guarded, load_ai_any, bind_t,
    inside, step, get, lift, update_managers, modify, warn_message, ret, throw.
  block_cases.
Qed.

(** The first run of [initialize] in general: it completes, or it rejects
    with the [TypeError] of a handler. *)
Lemma initialize_any_first (nu : NullishFailures) (env : Env) (w : World) :
  initialized (managers w) = false ->
  let r := initialize_any nu env w in
  session_part (snd r) = session_part w /\
  (forall k, k <> "backendPath" -> prop (config (snd r)) k = prop (config w) k) /\
  ((fst r = Normal tt /\ initialized (managers (snd r)) = true /\
    emitted (snd r) = (emitted w ++ [SigInitialized])%list) \/
   (exists v, fst r = Throw (no_message v) /\ initialized (managers (snd r)) = false /\
              emitted (snd r) = emitted w)).
Proof.
  intros Hinit r.
  destruct (init_backendPath_run env w) as (N1 & _ & Hk1 & Hm1 & Hs1 & He1 & _).
  assert (Er : r = initialize_any nu env w) by reflexivity. clearbody r.
  unfold initialize_any in Er. unfold bind at 1 in Er. unfold get at 1 in Er.
  cbv beta iota in Er. rewrite Hinit in Er.
  rewrite (bind_normal _ _ _ _ N1) in Er.
  remember (snd (init_backendPath env w)) as w1 eqn:E1. clear E1 N1.
  assert (Hi1 : initialized (managers w1) = false) by (by rewrite Hm1).
  unfold session_part in Hs1. injection Hs1 as T1 S1 L1 I1 X1.
  clear Hm1.
  pose proof (init_p2p_any_block nu env w1) as (O2 & Q2 & I2).
  unfold quiet_part in Q2. injection Q2 as C2 T2 S2 L2 N2 X2 E2 D2.
  unfold bind at 1 in Er.
  destruct (init_p2p_any nu env w1) as [[[]|e2] w2]; cbn [fst snd] in *.
  2:{ subst r. cbn [fst snd].
      split; [unfold session_part; congruence|].
      split; [intros k Hk; rewrite C2; by apply Hk1|]. right.
      destruct O2 as [O2|[v O2]]; [discriminate O2|]. exists v.
      split; [exact O2|]. split; congruence. }
  pose proof (init_transcription_any_block nu env w2) as (O3 & Q3 & I3).
  unfold quiet_part in Q3. injection Q3 as C3 T3 S3 L3 N3 X3 E3 D3.
  unfold bind at 1 in Er.
  destruct (init_transcription_any nu env w2) as [[[]|e3] w3]; cbn [fst snd] in *.
  2:{ subst r. cbn [fst snd].
      split; [unfold session_part; congruence|].
      split; [intros k Hk; rewrite C3, C2; by apply Hk1|]. right.
      destruct O3 as [O3|[v O3]]; [discriminate O3|]. exists v.
      split; [exact O3|]. split; congruence. }
  pose proof (init_ai_any_block nu env w3) as (O4 & Q4 & I4).
  unfold quiet_part in Q4. injection Q4 as C4 T4 S4 L4 N4 X4 E4 D4.
  unfold bind at 1 in Er.
  destruct (init_ai_any nu env w3) as [[[]|e4] w4]; cbn [fst snd] in *.
  2:{ subst r. cbn [fst snd].
      split; [unfold session_part; congruence|].
      split; [intros k Hk; rewrite C4, C3, C2; by apply Hk1|]. right.
      destruct O4 as [O4|[v O4]]; [discriminate O4|]. exists v.
      split; [exact O4|]. split; congruence. }
  subst r. simpl. split; [unfold session_part; simpl; congruence|].
  split; [intros k Hk; rewrite C4, C3, C2; by apply Hk1|]. left.
  split; [reflexivity|]. split; [reflexivity|]. congruence.
Qed.

Example construct_p2p : constructor (Some config_p2p) = Normal world_p2p.
Proof. vm_compute. reflexivity. Qed.




(** [initialize] on any world: it completes, touches neither the session
    state nor the listeners, and emits at most its own signal. *)
Lemma initialize_run (env : Env) (w : World) :
  let w' := snd (initialize env w) in
  fst (initialize env w) = Normal tt /\
  session_part w' = session_part w /\
  emitted w' = (emitted w ++ if initialized (managers w) then [] else [SigInitialized])%list /\
  initialized (managers w') = true /\
  (guard_inv w -> forwarders_of w' = forwarders_of w).
Proof.
  intros w'. subst w'.
  destruct (initialized (managers w)) eqn:Hi.
  - rewrite (initialize_again env w Hi). simpl. rewrite app_nil_r. by repeat split.
  - destruct (initialize_first env w Hi) as (Hn & Hs & He & _ & Hi' & _ & _ & Ht & _).
    repeat split; try assumption.
    intros Hg. unfold forwarders_of. rewrite Ht, (Hg Hi).
    by destruct (transcription_constructs _ _).
Qed.

(** ** Starting a transcription *)

Lemma start_p2p_session_frame (env : Env) (sid : string) :
  frame (keeps p2p_session_part) (start_p2p_session env sid).
Proof.
  unfold start_p2p_session, create_p2p_session, update_session.
  frame_auto; unfold keeps, p2p_session_part; simpl;
    by destruct (currentSession _).
Qed.

Lemma start_p2p_session_normal (env : Env) (sid : string) (w : World) :
  fst (start_p2p_session env sid w) = Normal tt.
Proof.
  unfold start_p2p_session, bind, get. simpl.
  destruct (_ && _); [apply try_warn_normal | reflexivity].
Qed.

(** The three ways [start_capture] can go. *)
Lemma start_capture_backend_fails (env : Env) (sid : string)
    (options : gmap string jsval) (w : World) (h : TranscriptionHandle) (e : thrown) :
  transcription (managers w) = Some h ->
  transcription_start env = Raises e ->
  start_capture env sid options w
  = (Throw e,
     record_call (CallStartTranscription
                    (start_options sid (prop (config w) "storagePath") options)) w).
Proof.
  intros Hh He.
  unfold start_capture, bind, get. cbv beta iota. rewrite Hh.
  unfold try_catch, start_backend, bind, get, call. cbv beta iota. by rewrite He.
Qed.

Lemma start_capture_backend_starts (env : Env) (sid : string)
    (options : gmap string jsval) (w : World) (h : TranscriptionHandle) :
  transcription (managers w) = Some h ->
  transcription_start env = Returns tt ->
  let w1 := record_call (CallStartTranscription
                           (start_options sid (prop (config w) "storagePath") options)) w in
  start_capture env sid options w
  = (Normal tt,
     set_isTranscribing true
       (set_managers (set_transcription (Some (add_forwarder h)) (managers w1)) w1)).
Proof.
  intros Hh He.
  unfold start_capture, bind, get. cbv beta iota. rewrite Hh.
  unfold try_catch, start_backend, bind, get, call, update_managers, modify.
  cbv beta iota. by rewrite He.
Qed.

Lemma start_capture_mock (env : Env) (sid : string)
    (options : gmap string jsval) (w : World) :
  transcription (managers w) = None ->
  let w1 := set_isTranscribing true w in
  start_capture env sid options w
  = (Normal tt,
     set_timers (<[next_timer w := {| period_ms := 3000; counter := 0 |}]> (timers w))
                (S (next_timer w)) w1).
Proof.
  intros Hh.
  unfold start_capture, bind, get. cbv beta iota. by rewrite Hh.
Qed.

(** [startTranscription] from an inactive orchestrator, reduced to its
    last step. *)
Lemma startTranscription_run (env : Env) (options : gmap string jsval) (w : World) :
  isTranscribing w = false ->
  let sid := generateSessionId env in
  let w1 := snd (initialize env w) in
  let w2 := set_currentSession (Some (new_session env)) w1 in
  let w3 := snd (start_p2p_session env sid w2) in
  startTranscription env options w
  = match start_capture env sid options w3 with
    | (Normal _, w4) =>
        (Normal (currentSession w4), record_emit (SigSessionStarted (currentSession w4)) w4)
    | (Throw e, w4) => (Throw e, w4)
    end.
Proof.
  intros Hf sid w1 w2 w3.
  destruct (initialize_run env w) as (N1 & _).
  pose proof (start_p2p_session_normal env sid w2) as N3.
  unfold startTranscription. unfold bind at 1. unfold get at 1. cbv beta iota.
  rewrite Hf.
  rewrite (bind_normal _ _ _ _ N1). fold w1.
  unfold bind at 1. unfold modify at 1. cbv beta iota. fold w2.
  change (session_id (new_session env)) with sid.
  rewrite (bind_normal _ _ _ _ N3). fold w3.
  unfold bind at 1.
  destruct (start_capture env sid options w3) as [[[]|e] w4]; reflexivity.
Qed.

Lemma startTranscription_active_run (env : Env) (options : gmap string jsval)
    (w : World) :
  isTranscribing w = true ->
  startTranscription env options w = (Throw AlreadyActive, w).
Proof.
  intros Hf. unfold startTranscription. unfold bind at 1. unfold get at 1.
  cbv beta iota. by rewrite Hf.
Qed.

(** C3: a [startTranscription] issued while a transcription is active
    fails with [AlreadyActive] and changes nothing: the session record, the
    active flag and every other part of the world are as before, no backend
    is called and no signal is emitted. *)
Theorem startTranscription_while_active (env : Env) (options : gmap string jsval)
    (w : World) :
  isTranscribing w = true ->
  startTranscription env options w = (Throw AlreadyActive, w) /\
  getCurrentSession (snd (startTranscription env options w)) = getCurrentSession w /\
  isActive (snd (startTranscription env options w)) = true.
Proof.
  intros Hf. rewrite (startTranscription_active_run env options w Hf).
  repeat split. exact Hf.
Qed.

Lemma startTranscription_while_active_witness :
  let w := run [OpStartTranscription env_no_backend ∅] world0 in
  isActive w = true /\
  startTranscription env_backend ∅ w = (Throw AlreadyActive, w).
Proof.
  split; [vm_compute; reflexivity|].
  apply (startTranscription_while_active env_backend ∅).
  vm_compute; reflexivity.
Defined.

(** The failing delegated start, in full: what the caller gets and what
    the world looks like afterwards. *)
Lemma startTranscription_backend_failure_run (env : Env)
    (options : gmap string jsval) (w : World) (h : TranscriptionHandle) (e : thrown) :
  isTranscribing w = false ->
  transcription (managers (snd (initialize env w))) = Some h ->
  transcription_start env = Raises e ->
  let w' := snd (startTranscription env options w) in
  fst (startTranscription env options w) = Throw e /\
  isTranscribing w' = false /\
  emitted w' = (emitted w ++ if initialized (managers w) then [] else [SigInitialized])%list /\
  session_core <$> currentSession w' = Some (session_core (new_session env)) /\
  transcription (managers w') = Some h /\
  timers w' = timers w /\
  listeners w' = listeners w /\
  In (CallStartTranscription
        (start_options (generateSessionId env) (prop (config w') "storagePath") options))
     (calls w').
Proof.
  intros Hf Hh He w'. subst w'.
  rewrite (startTranscription_run env options w Hf). cbv zeta.
  destruct (initialize_run env w) as (_ & Hs1 & He1 & _).
  remember (snd (initialize env w)) as w1 eqn:E1. clear E1.
  pose proof (start_p2p_session_frame env (generateSessionId env)
                (set_currentSession (Some (new_session env)) w1)) as F3.
  remember (snd (start_p2p_session env (generateSessionId env)
                   (set_currentSession (Some (new_session env)) w1))) as w3 eqn:E3.
  clear E3.
  unfold keeps, p2p_session_part in F3. simpl in F3.
  injection F3 as C3 T3 S3 M3 L3 I3 X3 Em3 D3.
  unfold session_part in Hs1. injection Hs1 as T1 S1 L1 I1 X1.
  assert (Hh3 : transcription (managers w3) = Some h) by (by rewrite M3).
  rewrite (start_capture_backend_fails env _ options w3 h e Hh3 He). simpl.
  repeat split; try congruence.
  apply in_or_app. right. by left.
Qed.

(** C6, as stated, fails in its last part: after a delegated start that
    rejects, the error reaches the caller and the orchestrator is not
    active, but the session record it holds is marked ['active']. *)
Lemma failed_start_leaves_session_marked_active :
  let r := startTranscription env_start_fails ∅ world0 in
  transcription_start env_start_fails = Raises backend_error /\
  fst r = Throw backend_error /\
  isActive (snd r) = false /\
  status <$> getCurrentSession (snd r) = Some "active".
Proof. vm_compute. repeat split; reflexivity. Qed.

(** C6, amended: if the delegated backend start fails, the error
    propagates to the caller, the active flag remains false, no
    [session:started] signal is emitted (the only signal the call can emit
    is [initialized]), no forwarding listener and no timer is registered;
    the session record created for the attempt stays stored, with status
    ['active']. *)
Theorem startTranscription_backend_failure (env : Env)
    (options : gmap string jsval) (w : World) (h : TranscriptionHandle) (e : thrown) :
  isTranscribing w = false ->
  transcription (managers (snd (initialize env w))) = Some h ->
  transcription_start env = Raises e ->
  let w' := snd (startTranscription env options w) in
  let new_signals := if initialized (managers w) then [] else [SigInitialized] in
  fst (startTranscription env options w) = Throw e /\
  isActive w' = false /\
  emitted w' = (emitted w ++ new_signals)%list /\
  (forall s, ~ In (SigSessionStarted s) new_signals) /\
  transcription (managers w') = Some h /\
  timers w' = timers w /\
  status <$> getCurrentSession w' = Some "active".
Proof.
  intros Hf Hh He w' new_signals.
  destruct (startTranscription_backend_failure_run env options w h e Hf Hh He)
    as (Hr & Hf' & Hem & Hc & Ht & Hti & _).
  fold w' in Hf', Hem, Hc, Ht, Hti.
  repeat split; try assumption.
  - intros s. subst new_signals. destruct (initialized _); simpl; [tauto|].
    intros [H|[]]. discriminate H.
  - unfold getCurrentSession. destruct (currentSession w') as [s|]; [|discriminate Hc].
    simpl in *. injection Hc as _ _ _ _ Hst. by rewrite Hst.
Qed.

Lemma startTranscription_backend_failure_witness :
  let r := startTranscription env_start_fails ∅ world0 in
  fst r = Throw backend_error /\ isActive (snd r) = false /\
  emitted (snd r) = [SigInitialized].
Proof.
  pose proof (startTranscription_backend_failure env_start_fails ∅ world0
                {| forwarders := 0 |} backend_error eq_refl
                ltac:(vm_compute; reflexivity) eq_refl)
    as (Hr & Ha & He & _).
  split; [exact Hr|]. split; [exact Ha|]. exact He.
Defined.

(** C9: [startTranscription] stores the freshly created session record
    before it delegates to the backend (the delegated call already carries
    the new id), so when the delegated start fails and the error
    propagates, [getCurrentSession()] returns the new record, with status
    ['active'] and no [endTime], and not the record that was stored
    before. *)
Theorem failed_start_replaces_currentSession (env : Env)
    (options : gmap string jsval) (w : World) (h : TranscriptionHandle) (e : thrown) :
  isTranscribing w = false ->
  transcription (managers (snd (initialize env w))) = Some h ->
  transcription_start env = Raises e ->
  let w' := snd (startTranscription env options w) in
  fst (startTranscription env options w) = Throw e /\
  (exists s : Session,
      getCurrentSession w' = Some s /\
      session_id s = generateSessionId env /\
      startTime s = now_start env /\
      status s = "active" /\
      endTime s = None /\
      participants s = []) /\
  In (CallStartTranscription
        (start_options (generateSessionId env) (prop (config w') "storagePath") options))
     (calls w') /\
  (forall old : Session,
      getCurrentSession w = Some old ->
      session_id old <> generateSessionId env ->
      getCurrentSession w' <> Some old).
Proof.
  intros Hf Hh He w'.
  destruct (startTranscription_backend_failure_run env options w h e Hf Hh He)
    as (Hr & _ & _ & Hc & _ & _ & _ & Hcall).
  fold w' in Hc, Hcall. unfold getCurrentSession.
  destruct (currentSession w') as [s|]; [|discriminate Hc].
  simpl in Hc. injection Hc as Hid Hst Hen Hpa Hsta.
  split; [exact Hr|]. split; [|split; [exact Hcall|]].
  - exists s. by repeat split.
  - intros old _ Hne [= ->]. by apply Hne.
Qed.

Lemma failed_start_replaces_currentSession_witness :
  let w := run [OpStartTranscription env_backend ∅; OpStopTranscription env_backend] world0 in
  let w' := snd (startTranscription env_start_fails ∅ w) in
  session_id <$> getCurrentSession w = Some "session_1700000000000_4fzyo82mv" /\
  status <$> getCurrentSession w = Some "ended" /\
  session_id <$> getCurrentSession w' = Some "session_1700000009000_k3x9q1z7a" /\
  status <$> getCurrentSession w' = Some "active".
Proof.
  intros w w'.
  split; [vm_compute; reflexivity|]. split; [vm_compute; reflexivity|].
  destruct (failed_start_replaces_currentSession env_start_fails ∅ w
              {| forwarders := 1 |} backend_error)
    as (_ & (s & Hs & Hid & _ & Hst & _) & _).
  - vm_compute; reflexivity.
  - vm_compute; reflexivity.
  - reflexivity.
  - unfold w'. rewrite Hs. simpl. rewrite Hid, Hst. split; vm_compute; reflexivity.
Defined.

(** ** Summaries *)

(** C7: without an AI handle [summarize()] fails with
    [AIProviderNotConfigured] and leaves the world as it was: no
    [summary:generated] signal (no signal at all) is emitted and no call
    reaches a backend. *)
Theorem summarize_without_ai (env : Env) (options : gmap string jsval) (w : World) :
  ai (managers w) = false ->
  summarize env options w = (Throw AIProviderNotConfigured, w) /\
  emitted (snd (summarize env options w)) = emitted w /\
  calls (snd (summarize env options w)) = calls w.
Proof.
  intros Hai.
  assert (H : summarize env options w = (Throw AIProviderNotConfigured, w)).
  { unfold summarize. unfold bind at 1. unfold get at 1. cbv beta iota.
    by rewrite Hai. }
  rewrite H. by repeat split.
Qed.

Lemma summarize_without_ai_witness :
  summarize env_backend ∅ world0 = (Throw AIProviderNotConfigured, world0).
Proof.
  apply (summarize_without_ai env_backend ∅ world0). reflexivity.
Defined.

(** ** The mock generator *)

Lemma tick_active (now : Z) (tid : nat) (w : World) (t : Timer) :
  timers w !! tid = Some t ->
  isTranscribing w = true ->
  tick now tid w
  = (Normal tt,
     set_timers (<[tid := {| period_ms := period_ms t; counter := S (counter t) |}]> (timers w))
                (next_timer w)
                (record_emit (SigTranscription (mock_event (counter t) now)) w)).
Proof.
  intros Ht Hf. unfold tick, bind, get. cbv beta iota. by rewrite Ht, Hf.
Qed.

Lemma tick_inactive (now : Z) (tid : nat) (w : World) (t : Timer) :
  timers w !! tid = Some t ->
  isTranscribing w = false ->
  tick now tid w = (Normal tt, set_timers (delete tid (timers w)) (next_timer w) w).
Proof.
  intros Ht Hf. unfold tick, bind, get. cbv beta iota. by rewrite Ht, Hf.
Qed.

Lemma tick_cleared (now : Z) (tid : nat) (w : World) :
  timers w !! tid = None -> tick now tid w = (Normal tt, w).
Proof.
  intros Ht. unfold tick, bind, get. cbv beta iota. by rewrite Ht.
Qed.

(** While the orchestrator stays active, every firing of a timer emits one
    event and advances its counter by one. *)
Lemma ticks_active (tid : nat) (nows : list Z) (w : World) (t : Timer) :
  timers w !! tid = Some t ->
  isTranscribing w = true ->
  let w' := run (ticks nows tid) w in
  isTranscribing w' = true /\
  timers w' !! tid
    = Some {| period_ms := period_ms t; counter := counter t + length nows |} /\
  length (emitted w') = length (emitted w) + length nows /\
  (forall k now, nows !! k = Some now ->
     emitted w' !! (length (emitted w) + k)
     = Some (SigTranscription (mock_event (counter t + k) now))) /\
  (forall i, i < length (emitted w) -> emitted w' !! i = emitted w !! i).
Proof.
  revert w t. induction nows as [|now0 nows IH]; intros w t Ht Hf; simpl.
  - rewrite !Nat.add_0_r. destruct t. repeat split; try done.
  - rewrite (tick_active now0 tid w t Ht Hf). cbn [snd].
    set (w1 := set_timers _ _ _).
    assert (Ht1 : timers w1 !! tid
                  = Some {| period_ms := period_ms t; counter := S (counter t) |}).
    { subst w1. simpl. apply lookup_insert_eq. }
    assert (Hf1 : isTranscribing w1 = true) by exact Hf.
    assert (He1 : emitted w1
                  = (emitted w ++ [SigTranscription (mock_event (counter t) now0)])%list)
      by reflexivity.
    destruct (IH w1 _ Ht1 Hf1) as (Hf' & Ht' & Hl' & Hk' & Hi').
    clearbody w1. cbn [period_ms counter] in *.
    rewrite He1, length_app in *. cbn [length] in *.
    split; [exact Hf'|]. split; [rewrite Ht'; do 2 f_equal; lia|].
    split; [rewrite Hl'; lia|]. split.
    + intros [|k] now Hk; simpl in Hk.
      * injection Hk as <-. rewrite !Nat.add_0_r.
        rewrite Hi' by lia. by rewrite lookup_app_r, Nat.sub_diag by lia.
      * specialize (Hk' k now Hk).
        replace (length (emitted w) + S k) with (length (emitted w) + 1 + k) by lia.
        rewrite Hk'. do 3 f_equal. lia.
    + intros i Hi. rewrite Hi' by lia. by rewrite lookup_app_l by lia.
Qed.

(** A start that finds no transcription handle: mock mode. *)
Lemma startTranscription_mock_run (env : Env) (options : gmap string jsval) (w : World) :
  isTranscribing w = false ->
  transcription (managers (snd (initialize env w))) = None ->
  let w' := snd (startTranscription env options w) in
  fst (startTranscription env options w) = Normal (currentSession w') /\
  isTranscribing w' = true /\
  timers w' = <[next_timer w := {| period_ms := 3000; counter := 0 |}]> (timers w) /\
  next_timer w' = S (next_timer w) /\
  emitted w'
  = (emitted w ++ (if initialized (managers w) then [] else [SigInitialized])
     ++ [SigSessionStarted (currentSession w')])%list /\
  session_core <$> currentSession w' = Some (session_core (new_session env)) /\
  transcription (managers w') = None.
Proof.
  intros Hf Hh w'. subst w'.
  rewrite (startTranscription_run env options w Hf). cbv zeta.
  destruct (initialize_run env w) as (_ & Hs1 & He1 & _).
  remember (snd (initialize env w)) as w1 eqn:E1. clear E1.
  pose proof (start_p2p_session_frame env (generateSessionId env)
                (set_currentSession (Some (new_session env)) w1)) as F3.
  remember (snd (start_p2p_session env (generateSessionId env)
                   (set_currentSession (Some (new_session env)) w1))) as w3 eqn:E3.
  clear E3.
  unfold keeps, p2p_session_part in F3. simpl in F3.
  injection F3 as C3 T3 S3 M3 L3 I3 X3 Em3 D3.
  unfold session_part in Hs1. injection Hs1 as T1 S1 L1 I1 X1.
  assert (Hh3 : transcription (managers w3) = None) by (by rewrite M3).
  rewrite (start_capture_mock env _ options w3 Hh3). simpl.
  repeat split; try congruence.
  rewrite Em3, He1. by rewrite <- app_assoc.
Qed.

(** The timer a mock-mode start registers, taken alone: it has period
    3000 ms, and while transcription stays active each of its firings emits
    exactly one TranscriptionEvent; the k-th of them (k from 0) carries the
    (k mod 5)-th phrase of the fixed list of five, confidence 0.95, isFinal
    true and speaker "Speaker 1", with the clock value of the firing as its
    timestamp. *)
Lemma mock_events_cycle (env : Env) (options : gmap string jsval) (w : World)
    (nows : list Z) :
  isTranscribing w = false ->
  transcription (managers (snd (initialize env w))) = None ->
  let w1 := snd (startTranscription env options w) in
  let tid := next_timer w in
  let w2 := run (ticks nows tid) w1 in
  length mockPhrases = 5 /\
  timers w1 !! tid = Some {| period_ms := 3000; counter := 0 |} /\
  length (emitted w2) = length (emitted w1) + length nows /\
  (forall i, i < length (emitted w1) -> emitted w2 !! i = emitted w1 !! i) /\
  (forall k now, nows !! k = Some now ->
     emitted w2 !! (length (emitted w1) + k)
     = Some (SigTranscription
               {| text := nth (k mod 5) mockPhrases "";
                  timestamp := now;
                  confidence := 0.95%float;
                  isFinal := true;
                  speaker := Some "Speaker 1" |})).
Proof.
  intros Hf Hh w1 tid w2.
  destruct (startTranscription_mock_run env options w Hf Hh) as (_ & Hf1 & Ht1 & _).
  fold w1 in Hf1, Ht1.
  assert (Htid : timers w1 !! tid = Some {| period_ms := 3000; counter := 0 |}).
  { rewrite Ht1. apply lookup_insert_eq. }
  destruct (ticks_active tid nows w1 _ Htid Hf1) as (_ & _ & Hl & Hk & Hi).
  fold w2 in Hl, Hk, Hi.
  split; [reflexivity|]. split; [exact Htid|]. split; [exact Hl|]. split; [exact Hi|].
  intros k now Hnow. exact (Hk k now Hnow).
Qed.

Example mock_events_cycle_seventh :
  let w1 := snd (startTranscription env_no_backend ∅ world0) in
  let w2 := run (ticks [3000; 6000; 9000; 12000; 15000; 18000; 21000]%Z 0) w1 in
  text <$> (emitted w2 !! (length (emitted w1) + 6)
            ≫= fun s => match s with SigTranscription e => Some e | _ => None end)
  = Some "Let's start with the agenda for today".
Proof.
  intros w1 w2.
  destruct (mock_events_cycle env_no_backend ∅ world0
              [3000; 6000; 9000; 12000; 15000; 18000; 21000]%Z eq_refl
              ltac:(vm_compute; reflexivity))
    as (_ & _ & _ & _ & Hk).
  unfold w2, w1. change (next_timer world0) with 0 in Hk.
  rewrite (Hk 6 21000%Z eq_refl). reflexivity.
Qed.

(** C4 fails on the code when the mock-mode start follows a mock session
    whose timer is still registered (the defect of C5: a stop leaves the
    timer in place).  A first mock session starts at ...0000, its timer 0
    fires at ...3000 and the session is stopped at ...5000.  The start at
    ...5500 finds the orchestrator inactive and no transcription handle, so
    it runs in mock mode and registers timer 1.  The timers then fire in
    clock order: timer 0 at ...6000, timer 1 at ...8500, timer 0 at ...9000.
    The first event emitted after the start carries the second phrase of
    the list where C4 expects the first, the events that follow are out
    of the cycle as well, and three events are emitted within three
    seconds. *)
Theorem restarted_mock_session_breaks_cycle :
  let before := run [OpStartTranscription env_no_backend ∅; OpTick 1700000003000 0;
                     OpStopTranscription env_no_backend] world0 in
  let w1 := snd (startTranscription env_restart ∅ before) in
  let w2 := run [OpTick 1700000006000 0; OpTick 1700000008500 1;
                 OpTick 1700000009000 0] w1 in
  let event (phrase : string) (now : Z) :=
    SigTranscription {| text := phrase; timestamp := now; confidence := 0.95%float;
                        isFinal := true; speaker := Some "Speaker 1" |} in
  isActive before = false /\
  transcription (managers (snd (initialize env_restart before))) = None /\
  fst (startTranscription env_restart ∅ before) = Normal (getCurrentSession w1) /\
  isActive w1 = true /\
  timers w1 !! 1 = Some {| period_ms := 3000; counter := 0 |} /\
  nth 0 mockPhrases "" = "Hello everyone, welcome to the meeting" /\
  emitted w2
  = (emitted w1
     ++ [ event "Let's start with the agenda for today" 1700000006000%Z;
          event "Hello everyone, welcome to the meeting" 1700000008500%Z;
          event "First item is about the project timeline" 1700000009000%Z ])%list.
Proof. vm_compute. repeat split; reflexivity. Qed.

(** C5 fails on the code when transcription is started again before the
    timer of the stopped session has fired.  A mock session starts at
    ...0000 and its timer 0 fires at ...3000; [stopTranscription()] resolves
    at ...5000 and leaves the timer registered; a new mock session starts at
    ...5500; at ...6000 timer 0 fires, finds the flag set again and emits the
    next phrase of the stopped session.  The same happens after
    [dispose()].  Without the restart the timer cancels itself at its next
    firing and emits nothing. *)
Theorem stopped_mock_timer_emits_after_restart :
  let t0 := {| period_ms := 3000; counter := 0 |} in
  let t1 := {| period_ms := 3000; counter := 1 |} in
  let w1 := run [OpStartTranscription env_no_backend ∅; OpTick 1700000003000 0] world0 in
  let stopped := run [OpStopTranscription env_no_backend] w1 in
  let disposed := run [OpDispose env_no_backend] w1 in
  (isActive stopped = false /\ timers stopped !! 0 = Some t1 /\
   let w3 := run [OpStartTranscription env_restart ∅] stopped in
   let w4 := run [OpTick 1700000006000 0] w3 in
   timers w3 !! 0 = Some t1 /\ timers w3 !! 1 = Some t0 /\
   emitted w4 = (emitted w3 ++ [SigTranscription (mock_event 1 1700000006000)])%list) /\
  (isActive disposed = false /\ timers disposed !! 0 = Some t1 /\
   let w3 := run [OpStartTranscription env_restart ∅] disposed in
   let w4 := run [OpTick 1700000006000 0] w3 in
   emitted w4 = (emitted w3 ++ [SigTranscription (mock_event 1 1700000006000)])%list) /\
  (let w4 := run [OpTick 1700000006000 0] stopped in
   emitted w4 = emitted stopped /\ timers w4 !! 0 = None).
Proof. vm_compute. repeat split; reflexivity. Qed.

(** ** Forwarding listeners on the backend handle *)

















(** * Further properties of the orchestrator *)

(** ** Construction *)

Lemma read_computed_cases (base key : jsval) :
  if nullish base || own_toString key
  then exists msg, read_computed base key = Throw (TypeError msg)
  else read_computed base key = Normal tt.
Proof.
  unfold read_computed, to_property_key.
  destruct base; simpl; eauto;
    destruct key as [| |[]| | |o]; simpl; eauto;
    destruct (o !! "toString"); eauto.
Qed.

(** X1: construction has three outcomes, decided by the merged
    configuration: the configuration error when [privacy] is falsy; a
    [TypeError] when [privacy] is truthy, [ai] is truthy and the warning
    check cannot read [apiKeys[ai]], because [apiKeys] is [null] or
    [undefined] or because [ai] is an object with an own [toString]
    property, which has no property name; an inactive orchestrator without
    session and without handles in every other case. *)
Theorem constructor_outcome (cfg : option (gmap string jsval)) :
  let c := merge_config (default ∅ cfg) in
  let privacy_ok := truthy (prop c "privacy") in
  let keys_read := truthy (prop c "ai") in
  let read_fails := nullish (prop c "apiKeys") || own_toString (prop c "ai") in
  (constructor cfg = Throw ConfigurationError <-> privacy_ok = false) /\
  ((exists msg, constructor cfg = Throw (TypeError msg)) <->
   privacy_ok && keys_read && read_fails = true) /\
  ((exists w, constructor cfg = Normal w) <->
   privacy_ok && negb (keys_read && read_fails) = true) /\
  (forall w, constructor cfg = Normal w ->
     config w = c /\ isActive w = false /\ getCurrentSession w = None /\
     managers w = empty_managers /\ emitted w = [] /\ calls w = [] /\ timers w = ∅).
Proof.
  intros c privacy_ok keys_read read_fails.
  subst privacy_ok keys_read read_fails.
  unfold constructor. fold c. unfold validateConfig, ConfigurationError.
  pose proof (read_computed_cases (prop c "apiKeys") (prop c "ai")) as Hread.
  destruct (truthy (prop c "privacy")); simpl.
  - destruct (truthy (prop c "ai")); simpl.
    + destruct (nullish (prop c "apiKeys") || own_toString (prop c "ai")).
      * destruct Hread as [msg ->].
        split; [split; intros H; discriminate H|].
        split; [split; [reflexivity|eauto]|].
        split; [split; [intros [w H]; discriminate H|intros H; discriminate H]|].
        intros w H. discriminate H.
      * rewrite Hread.
        split; [split; intros H; discriminate H|].
        split; [split; [intros [m H]; discriminate H|intros H; discriminate H]|].
        split; [split; [reflexivity|eexists; reflexivity]|].
        intros w H. injection H as <-. by repeat split.
    + split; [split; intros H; discriminate H|].
      split; [split; [intros [m H]; discriminate H|intros H; discriminate H]|].
      split; [split; [reflexivity|eexists; reflexivity]|].
      intros w H. injection H as <-. by repeat split.
  - split; [by split|].
    split; [split; [intros [m H]; discriminate H|intros H; discriminate H]|].
    split; [split; [intros [w H]; discriminate H|intros H; discriminate H]|].
    intros w H. discriminate H.
Qed.

Lemma constructor_outcome_witness :
  (exists msg, constructor (Some (<["apiKeys" := JNull]> ∅)) = Throw (TypeError msg)) /\
  (exists msg, constructor (Some (<["ai" := JObj (<["toString" := JNum 0]> ∅)]> ∅))
               = Throw (TypeError msg)) /\
  (exists w, constructor (Some (<["apiKeys" := JNull]> (<["ai" := JStr ""]> ∅))) = Normal w).
Proof.
  split; [|split].
  - apply (proj1 (proj2 (constructor_outcome (Some (<["apiKeys" := JNull]> ∅))))).
    vm_compute. reflexivity.
  - apply (proj1 (proj2 (constructor_outcome
                           (Some (<["ai" := JObj (<["toString" := JNum 0]> ∅)]> ∅))))).
    vm_compute. reflexivity.
  - apply (proj1 (proj2 (proj2 (constructor_outcome
                                  (Some (<["apiKeys" := JNull]> (<["ai" := JStr ""]> ∅))))))).
    vm_compute. reflexivity.
Defined.

(** ** What the operations leave alone *)

Lemma stopTranscription_setup (env : Env) :
  frame (keeps setup_part) (stopTranscription env).
Proof. unfold stopTranscription. frame_auto. Qed.

Lemma other_ops_setup (o : Op) (w : World) :
  match o with
  | OpInitialize _ | OpStartTranscription _ _ => True
  | _ => setup_part (run_op o w) = setup_part w
  end.
Proof.
  destruct o as [env|env options|env|env options|env sid|env key|name cb|env|now tid|data];
    try exact I; simpl.
  - apply stopTranscription_setup.
  - assert (H : frame (keeps setup_part) (summarize env options))
      by (unfold summarize, getTranscriptText; frame_auto).
    apply H.
  - assert (H : frame (keeps setup_part) (shareSession env sid))
      by (unfold shareSession; frame_auto).
    apply H.
  - assert (H : frame (keeps setup_part) (connectToSession env key))
      by (unfold connectToSession; frame_auto).
    apply H.
  - assert (H : frame (keeps setup_part) (on name cb)) by (unfold on; frame_auto).
    apply H.
  - assert (H : frame (keeps setup_part) (dispose env)).
    { unfold dispose, removeAllListeners. frame_auto. apply stopTranscription_setup. }
    apply H.
  - assert (H : frame (keeps setup_part) (tick now tid))
      by (unfold tick, clearInterval; frame_auto).
    apply H.
  - assert (H : frame (keeps setup_part) (backend_transcription data))
      by (unfold backend_transcription; frame_auto).
    apply H.
Qed.

(** [initialize] on any world: the configuration changes in [backendPath]
    at most, and the handles change on the first run only, each as its own
    block decides. *)
Lemma initialize_setup (env : Env) (w : World) :
  let w' := snd (initialize env w) in
  let base := backendPath_in_force env (config w) in
  (forall k, k <> "backendPath" -> prop (config w') k = prop (config w) k) /\
  (initialized (managers w) = true -> w' = w) /\
  (initialized (managers w) = false ->
     prop (config w') "backendPath" = base /\
     hyperdrive (managers w')
       = (if p2p_enabled (config w) && drive_constructs env base
          then true else hyperdrive (managers w)) /\
     session (managers w')
       = (if p2p_enabled (config w) && session_constructs env base
          then true else session (managers w)) /\
     ai (managers w')
       = (if ai_configured (config w) && ai_constructs env base
          then true else ai (managers w))).
Proof.
  intros w' base. subst w'.
  destruct (initialized (managers w)) eqn:Hi.
  - rewrite (initialize_again env w Hi). simpl. by repeat split.
  - destruct (initialize_first env w Hi)
      as (_ & _ & _ & _ & _ & Hh & Hs & _ & Ha & Hk & _).
    split; [exact Hk|]. split; [discriminate|]. intros _.
    split; [|by repeat split].
    (* the backend path after the run *)
    destruct (init_backendPath_run env w) as (N1 & Hbase & _).
    pose proof (init_p2p_normal env (snd (init_backendPath env w))) as N2.
    pose proof (init_p2p_quiet env (snd (init_backendPath env w))) as Q2.
    remember (snd (init_backendPath env w)) as w1 eqn:E1.
    pose proof (try_warn_normal (load_transcription env) (snd (init_p2p env w1))) as N3.
    pose proof (init_transcription_quiet env (snd (init_p2p env w1))) as Q3.
    fold (init_transcription env) in N3.
    remember (snd (init_p2p env w1)) as w2 eqn:E2.
    pose proof (init_ai_normal env (snd (init_transcription env w2))) as N4.
    pose proof (init_ai_quiet env (snd (init_transcription env w2))) as Q4.
    remember (snd (init_transcription env w2)) as w3 eqn:E3.
    remember (snd (init_ai env w3)) as w4 eqn:E4.
    assert (Hrun : initialize env w
                   = (Normal tt,
                      record_emit SigInitialized
                        (set_managers (set_initialized true (managers w4)) w4))).
    { unfold initialize. unfold bind at 1. unfold get at 1. cbv beta iota.
      rewrite Hi.
      rewrite (bind_normal _ _ _ _ N1), <- E1.
      rewrite (bind_normal _ _ _ _ N2), <- E2.
      rewrite (bind_normal _ _ _ _ N3), <- E3.
      rewrite (bind_normal _ _ _ _ N4), <- E4.
      reflexivity. }
    clear E1 E2 E3 E4. rewrite Hrun. simpl.
    unfold keeps, quiet_part in Q2, Q3, Q4.
    injection Q2 as C2 _ _ _ _ _ _ _.
    injection Q3 as C3 _ _ _ _ _ _ _.
    injection Q4 as C4 _ _ _ _ _ _ _.
    by rewrite C4, C3, C2.
Qed.

(** ** The ways a start and a stop can go *)

(** [startTranscription] from an inactive orchestrator, in closed form:
    [w1] is the world after [initialize], [w3] the world after the P2P
    step. *)
Lemma startTranscription_cases (env : Env) (options : gmap string jsval) (w : World) :
  isTranscribing w = false ->
  let sid := generateSessionId env in
  let w1 := snd (initialize env w) in
  let w2 := set_currentSession (Some (new_session env)) w1 in
  let w3 := snd (start_p2p_session env sid w2) in
  let c := CallStartTranscription (start_options sid (prop (config w3) "storagePath") options) in
  p2p_session_part w3 = p2p_session_part w2 /\
  startTranscription env options w
  = match transcription (managers w1) with
    | Some h =>
        match transcription_start env with
        | Raises e => (Throw e, record_call c w3)
        | Returns _ =>
            (Normal (currentSession w3),
             record_emit (SigSessionStarted (currentSession w3))
               (set_isTranscribing true
                  (set_managers (set_transcription (Some (add_forwarder h)) (managers w3))
                     (record_call c w3))))
        end
    | None =>
        (Normal (currentSession w3),
         record_emit (SigSessionStarted (currentSession w3))
           (set_timers (<[next_timer w3 := {| period_ms := 3000; counter := 0 |}]> (timers w3))
                       (S (next_timer w3)) (set_isTranscribing true w3)))
    end.
Proof.
  intros Hf sid w1 w2 w3 c.
  pose proof (startTranscription_run env options w Hf) as Hrun. cbv zeta in Hrun.
  fold sid w1 in Hrun. fold w2 in Hrun. fold w3 in Hrun.
  pose proof (start_p2p_session_frame env sid w2) as F3. fold w3 in F3.
  unfold keeps in F3. split; [exact F3|].
  assert (M3 : managers w3 = managers w2).
  { unfold p2p_session_part in F3. by injection F3. }
  change (managers w2) with (managers w1) in M3.
  clearbody w3. clearbody w1. rewrite Hrun. clear Hrun.
  destruct (transcription (managers w1)) as [h|] eqn:Hh.
  - rewrite <- M3 in Hh.
    destruct (transcription_start env) as [[]|e] eqn:He.
    + by rewrite (start_capture_backend_starts env sid options w3 h Hh He).
    + by rewrite (start_capture_backend_fails env sid options w3 h e Hh He).
  - rewrite <- M3 in Hh.
    by rewrite (start_capture_mock env sid options w3 Hh).
Qed.

Lemma stopTranscription_inactive (env : Env) (w : World) :
  isTranscribing w = false -> stopTranscription env w = (Normal tt, w).
Proof.
  intros Hf. unfold stopTranscription. unfold bind at 1. unfold get at 1.
  cbv beta iota. by rewrite Hf.
Qed.

Lemma stopTranscription_backend_fails (env : Env) (w : World)
    (h : TranscriptionHandle) (e : thrown) :
  isTranscribing w = true ->
  transcription (managers w) = Some h ->
  stopRecording env = Raises e ->
  stopTranscription env w = (Throw e, record_call CallStopRecording w).
Proof.
  intros Hf Hh He. unfold stopTranscription. unfold bind at 1. unfold get at 1.
  cbv beta iota. rewrite Hf, Hh. cbv beta iota.
  unfold bind at 1. unfold call. by rewrite He.
Qed.

(** The world a stop that goes through leaves. *)
Lemma stopTranscription_stops (env : Env) (w : World) :
  isTranscribing w = true ->
  (transcription (managers w) = None \/ stopRecording env = Returns tt) ->
  let w1 := match transcription (managers w) with
            | Some _ => record_call CallStopRecording w
            | None => w
            end in
  stopTranscription env w
  = (Normal tt,
     match currentSession w with
     | Some cur =>
         record_emit (SigSessionStopped (end_session (now_end env) cur))
           (set_currentSession (Some (end_session (now_end env) cur))
              (set_isTranscribing false w1))
     | None => set_isTranscribing false w1
     end).
Proof.
  intros Hf Hok w1. subst w1.
  unfold stopTranscription. unfold bind at 1. unfold get at 1.
  cbv beta iota. rewrite Hf. cbv beta iota.
  destruct (transcription (managers w)) as [h|] eqn:Hh.
  - destruct Hok as [Hok|Hok]; [discriminate Hok|].
    unfold bind at 1. unfold call. rewrite Hok. cbv beta iota.
    by destruct (currentSession w).
  - by destruct (currentSession w).
Qed.

(** After [initialize], a start changes neither the configuration nor
    which handles exist. *)
Lemma startTranscription_setup (env : Env) (options : gmap string jsval) (w : World) :
  isTranscribing w = false ->
  let w1 := snd (initialize env w) in
  let w' := snd (startTranscription env options w) in
  config w' = config w1 /\ handles w' = handles w1 /\
  initialized (managers w') = initialized (managers w1).
Proof.
  intros Hf w1 w'. subst w'.
  destruct (startTranscription_cases env options w Hf) as (F3 & Hrun).
  cbv zeta in F3, Hrun. fold w1 in F3, Hrun. rewrite Hrun. clear Hrun.
  remember (snd (start_p2p_session env (generateSessionId env)
                   (set_currentSession (Some (new_session env)) w1))) as w3 eqn:E3.
  clear E3. clearbody w1.
  unfold p2p_session_part in F3. simpl in F3.
  injection F3 as C3 _ _ M3 _ _ _ _ _.
  unfold handles.
  destruct (transcription (managers w1)) as [h|] eqn:Hh.
  - destruct (transcription_start env) as [[]|e]; simpl; rewrite ?M3, ?C3, ?Hh; by repeat split.
  - simpl. rewrite ?M3, ?C3, ?Hh. by repeat split.
Qed.

(** X2: the handles are created lazily, by [initialize] only: on an
    orchestrator that has just been constructed, whatever its
    configuration (an AI provider with its key, P2P enabled), [summarize]
    fails with [AIProviderNotConfigured] and [shareSession] and
    [connectToSession] fail with [P2PNotEnabled], before any backend is
    called and without changing anything. *)
Theorem fresh_orchestrator_has_no_handles (cfg : option (gmap string jsval))
    (w0 : World) (env : Env) (options : gmap string jsval) (v : jsval) :
  constructor cfg = Normal w0 ->
  summarize env options w0 = (Throw AIProviderNotConfigured, w0) /\
  shareSession env v w0 = (Throw P2PNotEnabled, w0) /\
  connectToSession env v w0 = (Throw P2PNotEnabled, w0).
Proof.
  unfold constructor. destruct (validateConfig _); [|discriminate].
  intros [= <-].
  unfold summarize, shareSession, connectToSession, bind, get. simpl.
  rewrite !orb_true_r. by repeat split.
Qed.

Lemma fresh_orchestrator_has_no_handles_witness :
  exists w0,
    constructor (Some (<["ai" := JStr "openai"]>
                       (<["p2p" := JBool true]>
                       (<["apiKeys" := JObj (<["openai" := JStr "sk"]> ∅)]> ∅)))) = Normal w0 /\
    summarize env_backend ∅ w0 = (Throw AIProviderNotConfigured, w0) /\
    shareSession env_backend (JStr "session_1") w0 = (Throw P2PNotEnabled, w0).
Proof.
  assert (Hc : exists w0,
             constructor (Some (<["ai" := JStr "openai"]>
                                (<["p2p" := JBool true]>
                                (<["apiKeys" := JObj (<["openai" := JStr "sk"]> ∅)]> ∅))))
             = Normal w0) by (vm_compute; eauto).
  destruct Hc as [w0 Hw0]. exists w0. split; [exact Hw0|].
  destruct (fresh_orchestrator_has_no_handles _ w0 env_backend ∅ (JStr "session_1") Hw0)
    as (H1 & H2 & _).
  by split.
Defined.

(** ** Handles and configuration along a history *)

Lemma initialize_configured (c0 : gmap string jsval) (env : Env) (w : World) :
  configured_inv c0 w -> configured_inv c0 (snd (initialize env w)).
Proof.
  intros (Hk & Ha & Hs & Hh).
  destruct (initialize_setup env w) as (Hk' & Hsame & Hfirst).
  destruct (initialized (managers w)) eqn:Hi.
  - rewrite (Hsame eq_refl). by repeat split.
  - destruct (Hfirst eq_refl) as (_ & Hh' & Hs' & Ha').
    assert (Hp2p : p2p_enabled (config w) = p2p_enabled c0).
    { unfold p2p_enabled. by rewrite Hk. }
    assert (Hai : ai_configured (config w) = ai_configured c0).
    { unfold ai_configured. by rewrite Hk. }
    remember (snd (initialize env w)) as w1 eqn:E1. clear E1.
    split; [intros k Hne; rewrite Hk' by exact Hne; by apply Hk|].
    rewrite Ha', Hs', Hh', Hp2p, Hai.
    split; [|split].
    + destruct (ai_configured c0); simpl; [done|exact Ha].
    + destruct (p2p_enabled c0); simpl; [done|exact Hs].
    + destruct (p2p_enabled c0); simpl; [done|exact Hh].
Qed.

Lemma configured_inv_setup (c0 : gmap string jsval) (w w' : World) :
  config w' = config w -> handles w' = handles w ->
  configured_inv c0 w -> configured_inv c0 w'.
Proof.
  unfold configured_inv, handles. intros Hc Hh (Hk & Ha & Hs & Hd).
  injection Hh as H1 H2 _ H4. rewrite Hc, H1, H2, H4. by repeat split.
Qed.

Lemma run_op_configured (c0 : gmap string jsval) (o : Op) (w : World) :
  configured_inv c0 w -> configured_inv c0 (run_op o w).
Proof.
  intros HJ. pose proof (other_ops_setup o w) as Hs.
  destruct o as [env|env options|env|env options|env sid|env key|name cb|env|now tid|data];
    try (pose proof (f_equal fst Hs) as Hc; pose proof (f_equal snd Hs) as Hm;
         cbn [fst snd setup_part] in Hc, Hm;
         apply (configured_inv_setup c0 w);
         [exact Hc|unfold handles; by rewrite Hm|exact HJ]).
  - by apply initialize_configured.
  - simpl. destruct (isTranscribing w) eqn:Hf.
    + by rewrite (startTranscription_active_run env options w Hf).
    + destruct (startTranscription_setup env options w Hf) as (Hc & Hh & _).
      apply (configured_inv_setup c0 (snd (initialize env w)));
        [exact Hc|exact Hh|by apply initialize_configured].
Qed.

Lemma run_configured (c0 : gmap string jsval) (ops : list Op) (w : World) :
  configured_inv c0 w -> configured_inv c0 (run ops w).
Proof.
  revert w. induction ops as [|o ops IH]; intros w HJ; [exact HJ|].
  change (run (o :: ops) w) with (run ops (run_op o w)).
  apply IH. by apply run_op_configured.
Qed.

Lemma constructor_configured (cfg : option (gmap string jsval)) (w0 : World) :
  constructor cfg = Normal w0 ->
  config w0 = merge_config (default ∅ cfg) /\
  configured_inv (merge_config (default ∅ cfg)) w0.
Proof.
  unfold constructor. destruct (validateConfig _); [|discriminate].
  intros [= <-]. split; [reflexivity|]. by repeat split.
Qed.

(** X3: in every history of an orchestrator, a handle exists only for a
    feature its construction-time configuration asks for: an AI handle only
    for a provider other than 'local', the drive and session handles only
    with P2P enabled; no operation changes a configuration field other than
    [backendPath].  So with [ai] left at 'local' (or falsy) every
    [summarize] fails with [AIProviderNotConfigured], and with [p2p] falsy
    every [shareSession] and [connectToSession] fails with
    [P2PNotEnabled], at any point of any history. *)
Theorem handles_only_as_configured (cfg : option (gmap string jsval)) (w0 : World)
    (ops : list Op) :
  constructor cfg = Normal w0 ->
  let c0 := merge_config (default ∅ cfg) in
  let w := run ops w0 in
  (forall k, k <> "backendPath" -> prop (config w) k = prop c0 k) /\
  (ai (managers w) = true -> ai_configured c0 = true) /\
  (session (managers w) = true -> p2p_enabled c0 = true) /\
  (hyperdrive (managers w) = true -> p2p_enabled c0 = true) /\
  (ai_configured c0 = false ->
   forall env options, summarize env options w = (Throw AIProviderNotConfigured, w)) /\
  (p2p_enabled c0 = false ->
   forall env v, shareSession env v w = (Throw P2PNotEnabled, w) /\
                 connectToSession env v w = (Throw P2PNotEnabled, w)).
Proof.
  intros Hc c0 w.
  destruct (constructor_configured cfg w0 Hc) as (_ & HJ0).
  pose proof (run_configured c0 ops w0 HJ0) as (Hk & Ha & Hs & Hh).
  fold w in Hk, Ha, Hs, Hh. clearbody w.
  split; [exact Hk|]. split; [exact Ha|]. split; [exact Hs|]. split; [exact Hh|].
  split.
  - intros Hno env options.
    assert (Hai : ai (managers w) = false).
    { apply not_true_is_false. intros E. rewrite (Ha E) in Hno. discriminate Hno. }
    unfold summarize. unfold bind at 1. unfold get at 1. cbv beta iota. by rewrite Hai.
  - intros Hno env v.
    assert (Hp : truthy (prop (config w) "p2p") = false).
    { rewrite Hk by discriminate. exact Hno. }
    split.
    + unfold shareSession. unfold bind at 1. unfold get at 1. cbv beta iota.
      by rewrite Hp.
    + unfold connectToSession. unfold bind at 1. unfold get at 1. cbv beta iota.
      by rewrite Hp.
Qed.

Lemma handles_only_as_configured_witness :
  summarize env_backend ∅
    (run [OpStartTranscription env_backend ∅; OpStopTranscription env_backend] world0)
  = (Throw AIProviderNotConfigured,
     run [OpStartTranscription env_backend ∅; OpStopTranscription env_backend] world0).
Proof.
  exact (proj1 (proj2 (proj2 (proj2 (proj2
           (handles_only_as_configured None world0
              [OpStartTranscription env_backend ∅; OpStopTranscription env_backend]
              constructor_world0)))))
           ltac:(vm_compute; reflexivity) env_backend ∅).
Defined.

Lemma run_op_initialized (o : Op) (w : World) :
  initialized (managers w) = true ->
  initialized (managers (run_op o w)) = true /\
  handles (run_op o w) = handles w /\
  config (run_op o w) = config w.
Proof.
  intros Hi. pose proof (other_ops_setup o w) as Hs.
  destruct o as [env|env options|env|env options|env sid|env key|name cb|env|now tid|data];
    try (pose proof (f_equal fst Hs) as Hc; pose proof (f_equal snd Hs) as Hm;
         cbn [fst snd setup_part] in Hc, Hm;
         unfold handles; rewrite Hm; by repeat split).
  - simpl. rewrite (initialize_again env w Hi). by repeat split.
  - simpl. destruct (isTranscribing w) eqn:Hf.
    + rewrite (startTranscription_active_run env options w Hf). by repeat split.
    + destruct (startTranscription_setup env options w Hf) as (Hc & Hh & Hi').
      rewrite (initialize_again env w Hi) in Hc, Hh, Hi'. simpl in Hc, Hh, Hi'.
      split; [by rewrite Hi'|]. by split.
Qed.

(** X4: the handles are written once.  From the first [initialize] on, no
    operation of any history creates or drops a handle (a start only adds a
    listener to the transcription handle it finds), re-runs the
    initialisation, or changes the configuration: a backend that was
    unavailable at the first initialisation stays unavailable for the
    lifetime of the orchestrator. *)
Theorem handles_written_once (w : World) (ops : list Op) :
  initialized (managers w) = true ->
  initialized (managers (run ops w)) = true /\
  handles (run ops w) = handles w /\
  config (run ops w) = config w.
Proof.
  revert w. induction ops as [|o ops IH]; intros w Hi; [by repeat split|].
  change (run (o :: ops) w) with (run ops (run_op o w)).
  destruct (run_op_initialized o w Hi) as (Hi1 & Hh1 & Hc1).
  destruct (IH (run_op o w) Hi1) as (Hi2 & Hh2 & Hc2).
  split; [exact Hi2|]. split; congruence.
Qed.

Lemma handles_written_once_witness :
  handles (run [OpStopTranscription env_no_backend; OpInitialize env_backend;
                OpStartTranscription env_backend ∅]
               (run [OpStartTranscription env_no_backend ∅] world0))
  = (false, false, false, false).
Proof.
  rewrite (proj1 (proj2 (handles_written_once
                           (run [OpStartTranscription env_no_backend ∅] world0)
                           [OpStopTranscription env_no_backend; OpInitialize env_backend;
                            OpStartTranscription env_backend ∅]
                           ltac:(vm_compute; reflexivity)))).
  vm_compute. reflexivity.
Defined.

(** ** Stopping and disposing *)

Lemma stopTranscription_normal_inactive (env : Env) (w : World) :
  fst (stopTranscription env w) = Normal tt ->
  isTranscribing (snd (stopTranscription env w)) = false.
Proof.
  destruct (isTranscribing w) eqn:Hf.
  - destruct (transcription (managers w)) as [h|] eqn:Hh.
    + destruct (stopRecording env) as [[]|e] eqn:He.
      * rewrite (stopTranscription_stops env w Hf (or_intror He)).
        intros _. by destruct (currentSession w).
      * rewrite (stopTranscription_backend_fails env w h e Hf Hh He). discriminate.
    + rewrite (stopTranscription_stops env w Hf (or_introl Hh)).
      intros _. by destruct (currentSession w).
  - by rewrite (stopTranscription_inactive env w Hf).
Qed.

Lemma dispose_run (env : Env) (w : World) :
  dispose env w
  = match (if isTranscribing w then stopTranscription env w else (Normal tt, w)) with
    | (Normal _, w1) => (Normal tt, set_listeners [] w1)
    | (Throw e, w1) => (Throw e, w1)
    end.
Proof.
  unfold dispose. unfold bind at 1. unfold get at 1. cbv beta iota.
  unfold bind. destruct (isTranscribing w); [|reflexivity].
  by destruct (stopTranscription env w) as [[[]|e] w1].
Qed.

(** X5: stopping and disposing are idempotent.  [stopTranscription] on an
    inactive orchestrator does nothing at all; after a stop that resolved,
    a second stop does nothing; after a [dispose] that resolved the
    orchestrator is inactive and has no listeners, and a second [dispose]
    resolves and changes nothing. *)
Theorem stop_and_dispose_idempotent (env1 env2 : Env) (w : World) :
  (isTranscribing w = false -> stopTranscription env1 w = (Normal tt, w)) /\
  (fst (stopTranscription env1 w) = Normal tt ->
   stopTranscription env2 (snd (stopTranscription env1 w))
   = (Normal tt, snd (stopTranscription env1 w))) /\
  (fst (dispose env1 w) = Normal tt ->
   isActive (snd (dispose env1 w)) = false /\
   listeners (snd (dispose env1 w)) = [] /\
   dispose env2 (snd (dispose env1 w)) = (Normal tt, snd (dispose env1 w))).
Proof.
  split; [apply stopTranscription_inactive|]. split.
  - intros Hn. apply stopTranscription_inactive.
    by apply stopTranscription_normal_inactive.
  - rewrite (dispose_run env1 w).
    destruct (isTranscribing w) eqn:Hf.
    + pose proof (stopTranscription_normal_inactive env1 w) as Hs.
      destruct (stopTranscription env1 w) as [[[]|e] w1]; [|discriminate].
      intros _. simpl in *. specialize (Hs eq_refl).
      split; [exact Hs|]. split; [reflexivity|].
      rewrite dispose_run. simpl. by rewrite Hs.
    + intros _. simpl. split; [exact Hf|]. split; [reflexivity|].
      rewrite dispose_run. simpl. by rewrite Hf.
Qed.

Lemma stop_and_dispose_idempotent_witness :
  dispose env_backend
    (snd (dispose env_no_backend (run [OpStartTranscription env_no_backend ∅] world0)))
  = (Normal tt,
     snd (dispose env_no_backend (run [OpStartTranscription env_no_backend ∅] world0))).
Proof.
  exact (proj2 (proj2 (proj2 (proj2
           (stop_and_dispose_idempotent env_no_backend env_backend
              (run [OpStartTranscription env_no_backend ∅] world0)))
           ltac:(vm_compute; reflexivity)))).
Defined.

(** X6: a stop that goes through (no transcription handle, or
    [stopRecording] resolves) on an active orchestrator clears the active
    flag, stamps the stored session with the end time and status
    ['ended'] while keeping its id, start time and drive keys, and emits
    exactly one signal, [session:stopped], carrying the ended record.  It
    touches neither the handles, nor the listeners, nor the timers: the
    mock timer is still registered when the stop resolves. *)
Theorem stopTranscription_ends_session (env : Env) (w : World) (s : Session) :
  isTranscribing w = true ->
  currentSession w = Some s ->
  (transcription (managers w) = None \/ stopRecording env = Returns tt) ->
  let w' := snd (stopTranscription env w) in
  let ended := {| session_id := session_id s; startTime := startTime s;
                  endTime := Some (now_end env); participants := participants s;
                  status := "ended"; driveKey := driveKey s;
                  discoveryKey := discoveryKey s |} in
  fst (stopTranscription env w) = Normal tt /\
  isActive w' = false /\
  getCurrentSession w' = Some ended /\
  emitted w' = (emitted w ++ [SigSessionStopped ended])%list /\
  managers w' = managers w /\ listeners w' = listeners w /\ timers w' = timers w.
Proof.
  intros Hf Hs Hok w' ended. subst w'.
  rewrite (stopTranscription_stops env w Hf Hok). rewrite Hs.
  destruct (transcription (managers w)); by repeat split.
Qed.

Lemma stopTranscription_ends_session_witness :
  status <$> getCurrentSession
               (snd (stopTranscription env_no_backend
                       (run [OpStartTranscription env_no_backend ∅] world0)))
  = Some "ended".
Proof.
  rewrite (proj1 (proj2 (proj2
             (stopTranscription_ends_session env_no_backend
                (run [OpStartTranscription env_no_backend ∅] world0)
                (new_session env_no_backend)
                ltac:(vm_compute; reflexivity) ltac:(vm_compute; reflexivity)
                ltac:(left; vm_compute; reflexivity))))).
  reflexivity.
Defined.

(** X7: when the backend's [stopRecording] rejects, the error propagates
    from [stopTranscription] and from [dispose] alike and the orchestrator
    stays as it was apart from the recorded call: still active, session
    still running, no [session:stopped] signal, and [dispose] has not
    released the listeners. *)
Theorem stopRecording_failure_keeps_active (env : Env) (w : World)
    (h : TranscriptionHandle) (e : thrown) :
  isTranscribing w = true ->
  transcription (managers w) = Some h ->
  stopRecording env = Raises e ->
  stopTranscription env w = (Throw e, record_call CallStopRecording w) /\
  dispose env w = (Throw e, record_call CallStopRecording w) /\
  isActive (snd (dispose env w)) = true /\
  getCurrentSession (snd (dispose env w)) = getCurrentSession w /\
  listeners (snd (dispose env w)) = listeners w /\
  emitted (snd (dispose env w)) = emitted w.
Proof.
  intros Hf Hh He.
  pose proof (stopTranscription_backend_fails env w h e Hf Hh He) as Hstop.
  assert (Hd : dispose env w = (Throw e, record_call CallStopRecording w)).
  { rewrite dispose_run, Hf, Hstop. reflexivity. }
  rewrite Hd. by repeat split.
Qed.

Lemma stopRecording_failure_keeps_active_witness :
  dispose env_stop_fails (run [OpOn "transcription" 1; OpStartTranscription env_backend ∅] world0)
  = (Throw backend_error,
     record_call CallStopRecording
       (run [OpOn "transcription" 1; OpStartTranscription env_backend ∅] world0)).
Proof.
  exact (proj1 (proj2
           (stopRecording_failure_keeps_active env_stop_fails
              (run [OpOn "transcription" 1; OpStartTranscription env_backend ∅] world0)
              {| forwarders := 1 |} backend_error
              ltac:(vm_compute; reflexivity) ltac:(vm_compute; reflexivity) eq_refl))).
Defined.

(** ** Starting, continued *)

(** The P2P step of a start, in closed form. *)
Lemma start_p2p_session_keys (env : Env) (sid : string) (w : World) (s : Session) :
  currentSession w = Some s ->
  currentSession (snd (start_p2p_session env sid w))
  = Some (if truthy (prop (config w) "p2p") && session (managers w)
          then match createSessionDrive env sid with
               | Returns info =>
                   if nullish info then s
                   else set_discoveryKey (member_value info "discoveryKey")
                          (set_driveKey (member_value info "driveKey") s)
               | Raises _ => s
               end
          else s) /\
  (truthy (prop (config w) "p2p") && session (managers w) = false ->
   calls (snd (start_p2p_session env sid w)) = calls w).
Proof.
  intros Hs. unfold start_p2p_session. unfold bind, get.
  cbv beta iota.
  destruct (truthy (prop (config w) "p2p") && session (managers w)); [|by split].
  split; [|discriminate].
  unfold try_catch, create_p2p_session, bind, call, lift, update_session, modify,
    warn_and_continue, ret.
  destruct (createSessionDrive env sid) as [info|e]; cbv beta iota; [|exact Hs].
  destruct info; simpl; rewrite ?Hs; reflexivity.
Qed.

Lemma lookup_start_options (sid : string) (sp : jsval) (options : gmap string jsval)
    (k : string) :
  start_options sid sp options !! k
  = match options !! k with
    | Some v => Some v
    | None => if decide ("sessionId" = k) then Some (JStr sid)
              else if decide ("outputDir" = k) then Some sp else None
    end.
Proof.
  unfold start_options. destruct (options !! k) as [v|] eqn:Hk.
  - by apply lookup_union_Some_l.
  - rewrite lookup_union_r by exact Hk.
    rewrite lookup_insert. destruct (decide ("sessionId" = k)); [done|].
    rewrite lookup_insert. by destruct (decide ("outputDir" = k)).
Qed.

(** X8: a start that is delegated to the backend and resolves registers
    exactly one more forwarding listener on the handle and no timer; the
    delegated call is the last backend call made, and its argument is the
    caller's options completed with [sessionId] (the id of the new
    session) and [outputDir] (the configured storage path), a field of the
    caller's options of either name taking precedence. *)
Theorem startTranscription_backend_success (env : Env) (options : gmap string jsval)
    (w : World) (h : TranscriptionHandle) :
  isTranscribing w = false ->
  transcription (managers (snd (initialize env w))) = Some h ->
  transcription_start env = Returns tt ->
  let w' := snd (startTranscription env options w) in
  let opts := start_options (generateSessionId env) (prop (config w) "storagePath") options in
  transcription (managers w') = Some {| forwarders := S (forwarders h) |} /\
  timers w' = timers w /\ next_timer w' = next_timer w /\
  last (calls w') = Some (CallStartTranscription opts) /\
  (forall k, opts !! k
             = match options !! k with
               | Some v => Some v
               | None => if decide ("sessionId" = k) then Some (JStr (generateSessionId env))
                         else if decide ("outputDir" = k)
                              then Some (prop (config w) "storagePath") else None
               end).
Proof.
  intros Hf Hh He w' opts. subst w' opts.
  destruct (startTranscription_cases env options w Hf) as (F3 & Hrun).
  destruct (initialize_run env w) as (_ & Hs1 & _).
  destruct (initialize_setup env w) as (Hk & _).
  cbv zeta in F3, Hrun, Hk. rewrite Hrun, Hh, He. clear Hrun.
  remember (snd (initialize env w)) as w1 eqn:E1. clear E1.
  remember (snd (start_p2p_session env (generateSessionId env)
                   (set_currentSession (Some (new_session env)) w1))) as w3 eqn:E3.
  clear E3.
  unfold p2p_session_part in F3. simpl in F3.
  injection F3 as C3 _ _ _ _ I3 X3 _ _.
  unfold session_part in Hs1. injection Hs1 as _ _ _ I1 X1.
  simpl. rewrite C3, (Hk "storagePath") by discriminate.
  split; [reflexivity|]. split; [congruence|]. split; [congruence|].
  split; [apply last_snoc|]. intros k. apply lookup_start_options.
Qed.

Lemma startTranscription_backend_success_witness :
  forwarders_of (snd (startTranscription env_backend (<["outputDir" := JStr "/tmp"]> ∅) world0))
  = 1.
Proof.
  unfold forwarders_of.
  rewrite (proj1 (startTranscription_backend_success env_backend
                    (<["outputDir" := JStr "/tmp"]> ∅) world0 {| forwarders := 0 |}
                    eq_refl ltac:(vm_compute; reflexivity) eq_refl)).
  reflexivity.
Defined.

(** X10: the drive keys of the session a start creates.  When P2P is
    enabled, a session handle exists and [createSessionDrive] resolves
    with something other than [null] or [undefined], the stored session
    carries its [driveKey] and [discoveryKey] (both [undefined] when the
    answer is not an object); when P2P is disabled, no session handle
    exists, the creation rejects or answers [null]/[undefined], both keys
    stay absent.  In every case the record keeps the id, start time and
    status it was created with. *)
Theorem startTranscription_drive_keys (env : Env) (options : gmap string jsval)
    (w : World) :
  isTranscribing w = false ->
  let w1 := snd (initialize env w) in
  let w' := snd (startTranscription env options w) in
  exists s,
    getCurrentSession w' = Some s /\
    session_core s = session_core (new_session env) /\
    (driveKey s, discoveryKey s)
    = if p2p_enabled (config w) && session (managers w1)
      then match createSessionDrive env (generateSessionId env) with
           | Returns info =>
               if nullish info then (None, None)
               else (Some (member_value info "driveKey"),
                     Some (member_value info "discoveryKey"))
           | Raises _ => (None, None)
           end
      else (None, None).
Proof.
  intros Hf w1 w'. subst w'.
  destruct (startTranscription_cases env options w Hf) as (_ & Hrun).
  destruct (initialize_setup env w) as (Hk & _).
  cbv zeta in Hrun, Hk. fold w1 in Hrun, Hk.
  destruct (start_p2p_session_keys env (generateSessionId env)
              (set_currentSession (Some (new_session env)) w1) (new_session env) eq_refl)
    as (Hs3 & _).
  change (managers (set_currentSession (Some (new_session env)) w1)) with (managers w1) in Hs3.
  change (config (set_currentSession (Some (new_session env)) w1)) with (config w1) in Hs3.
  rewrite (Hk "p2p") in Hs3 by discriminate.
  fold (p2p_enabled (config w)) in Hs3.
  remember (snd (start_p2p_session env (generateSessionId env)
                   (set_currentSession (Some (new_session env)) w1))) as w3 eqn:E3.
  clear E3. clearbody w1.
  assert (Hcur : getCurrentSession (snd (startTranscription env options w))
                 = currentSession w3).
  { rewrite Hrun. unfold getCurrentSession.
    destruct (transcription (managers w1)); [|reflexivity].
    by destruct (transcription_start env) as [[]|e]. }
  rewrite Hcur, Hs3. eexists. split; [reflexivity|].
  destruct (p2p_enabled (config w) && session (managers w1)); [|by split].
  destruct (createSessionDrive env (generateSessionId env)) as [info|e]; [|by split].
  by destruct (nullish info).
Qed.

Lemma startTranscription_drive_keys_witness :
  driveKey <$> getCurrentSession (snd (startTranscription env_backend ∅ world_p2p))
  = Some (Some (JStr "dk")).
Proof.
  destruct (startTranscription_drive_keys env_backend ∅ world_p2p eq_refl)
    as (s & Hs & _ & Hkeys).
  rewrite Hs. simpl.
  assert (Hc : p2p_enabled (config world_p2p)
               && session (managers (snd (initialize env_backend world_p2p))) = true)
    by (vm_compute; reflexivity).
  rewrite Hc in Hkeys. simpl in Hkeys. injection Hkeys as -> _.
  vm_compute. reflexivity.
Defined.

(** X11: one session at a time.  After any [startTranscription] that
    resolved, a further [startTranscription] fails with [AlreadyActive]
    and leaves the world as it is, whatever the backend would answer. *)
Theorem second_start_fails (env1 env2 : Env) (options1 options2 : gmap string jsval)
    (w : World) (r : option Session) :
  fst (startTranscription env1 options1 w) = Normal r ->
  startTranscription env2 options2 (snd (startTranscription env1 options1 w))
  = (Throw AlreadyActive, snd (startTranscription env1 options1 w)).
Proof.
  intros Hn. apply startTranscription_active_run.
  destruct (isTranscribing w) eqn:Hf.
  - rewrite (startTranscription_active_run env1 options1 w Hf) in Hn. discriminate Hn.
  - destruct (startTranscription_cases env1 options1 w Hf) as (_ & Hrun).
    cbv zeta in Hrun. rewrite Hrun in Hn |- *. clear Hrun.
    destruct (transcription (managers (snd (initialize env1 w)))); [|reflexivity].
    destruct (transcription_start env1) as [[]|e]; [reflexivity|discriminate Hn].
Qed.

Lemma second_start_fails_witness :
  startTranscription env_backend ∅ (snd (startTranscription env_no_backend ∅ world0))
  = (Throw AlreadyActive, snd (startTranscription env_no_backend ∅ world0)).
Proof.
  apply (second_start_fails env_no_backend env_backend ∅ ∅ world0
           (Some (new_session env_no_backend))).
  vm_compute. reflexivity.
Defined.

(** ** The session life cycle along a history *)

Lemma lifecycle_inv_activity (w w' : World) :
  activity_part w' = activity_part w -> lifecycle_inv w -> lifecycle_inv w'.
Proof.
  unfold activity_part, lifecycle_inv. intros H. injection H as -> ->. tauto.
Qed.

Lemma stopTranscription_lifecycle (env : Env) (w : World) :
  lifecycle_inv w -> lifecycle_inv (snd (stopTranscription env w)).
Proof.
  intros Hinv. destruct (isTranscribing w) eqn:Hf.
  - assert (Hstops : transcription (managers w) = None \/ stopRecording env = Returns tt ->
                     lifecycle_inv (snd (stopTranscription env w))).
    { intros Hok. rewrite (stopTranscription_stops env w Hf Hok).
      destruct (currentSession w) as [cur|] eqn:Hcur; simpl.
      - split; [|by destruct (transcription (managers w))].
        intros s Hs. right.
        assert (s = end_session (now_end env) cur)
          by (destruct (transcription (managers w)); simpl in Hs; congruence).
        subst s. split; [reflexivity|]. by eexists.
      - split; destruct (transcription (managers w)); simpl; rewrite ?Hcur;
          intros; discriminate. }
    destruct (transcription (managers w)) as [h|] eqn:Hh;
      [|apply Hstops; left; first [exact Hh|reflexivity]].
    destruct (stopRecording env) as [[]|e] eqn:He;
      [apply Hstops; right; first [exact He|reflexivity]|].
    rewrite (stopTranscription_backend_fails env w h e Hf Hh He).
    by apply (lifecycle_inv_activity w).
  - by rewrite (stopTranscription_inactive env w Hf).
Qed.

Lemma startTranscription_lifecycle (env : Env) (options : gmap string jsval) (w : World) :
  lifecycle_inv w -> lifecycle_inv (snd (startTranscription env options w)).
Proof.
  intros Hinv. destruct (isTranscribing w) eqn:Hf.
  - by rewrite (startTranscription_active_run env options w Hf).
  - destruct (startTranscription_cases env options w Hf) as (F3 & Hrun).
    destruct (initialize_run env w) as (_ & Hs1 & _).
    cbv zeta in F3, Hrun. rewrite Hrun. clear Hrun.
    remember (snd (initialize env w)) as w1 eqn:E1. clear E1.
    remember (snd (start_p2p_session env (generateSessionId env)
                     (set_currentSession (Some (new_session env)) w1))) as w3 eqn:E3.
    clear E3.
    unfold p2p_session_part in F3. simpl in F3.
    injection F3 as _ T3 S3 _ _ _ _ _ _.
    unfold session_part in Hs1. injection Hs1 as T1 _ _ _ _.
    assert (Hrunning : forall s, currentSession w3 = Some s -> session_running s).
    { intros s Hs. rewrite Hs in S3.
      pose proof (f_equal (default (session_core s)) S3) as Hc. simpl in Hc.
      unfold session_core in Hc. injection Hc as _ _ He _ Hst. by split. }
    assert (Hsome : exists s, currentSession w3 = Some s /\ session_running s).
    { destruct (currentSession w3) as [s|]; [|discriminate S3]. eauto. }
    assert (Hf3 : isTranscribing w3 = false) by congruence.
    unfold lifecycle_inv.
    destruct (transcription (managers w1)) as [h|].
    + destruct (transcription_start env) as [[]|e]; simpl.
      * split; [intros s Hs; left; by apply Hrunning|by intros _].
      * split; [intros s Hs; left; by apply Hrunning|]. rewrite Hf3. discriminate.
    + simpl. split; [intros s Hs; left; by apply Hrunning|by intros _].
Qed.

Lemma run_op_lifecycle (o : Op) (w : World) :
  lifecycle_inv w -> lifecycle_inv (run_op o w).
Proof.
  intros Hinv.
  destruct o as [env|env options|env|env options|env sid|env key|name cb|env|now tid|data];
    simpl.
  - destruct (initialize_run env w) as (_ & Hs & _).
    apply (lifecycle_inv_activity w); [|exact Hinv].
    unfold session_part in Hs. unfold activity_part. injection Hs as -> -> _ _ _. reflexivity.
  - by apply startTranscription_lifecycle.
  - by apply stopTranscription_lifecycle.
  - assert (H : frame (keeps activity_part) (summarize env options))
      by (unfold summarize, getTranscriptText; frame_auto).
    by apply (lifecycle_inv_activity w); [apply H|].
  - assert (H : frame (keeps activity_part) (shareSession env sid))
      by (unfold shareSession; frame_auto).
    by apply (lifecycle_inv_activity w); [apply H|].
  - assert (H : frame (keeps activity_part) (connectToSession env key))
      by (unfold connectToSession; frame_auto).
    by apply (lifecycle_inv_activity w); [apply H|].
  - by apply (lifecycle_inv_activity w).
  - rewrite dispose_run. destruct (isTranscribing w) eqn:Hf.
    + pose proof (stopTranscription_lifecycle env w Hinv) as Hs.
      destruct (stopTranscription env w) as [[[]|e] w1]; simpl in *; [|exact Hs].
      by apply (lifecycle_inv_activity w1).
    + simpl. by apply (lifecycle_inv_activity w).
  - assert (H : frame (keeps activity_part) (tick now tid))
      by (unfold tick, clearInterval; frame_auto).
    by apply (lifecycle_inv_activity w); [apply H|].
  - assert (H : frame (keeps activity_part) (backend_transcription data))
      by (unfold backend_transcription; frame_auto).
    by apply (lifecycle_inv_activity w); [apply H|].
Qed.

(** X12: in every history of a constructed orchestrator, the stored
    session, if there is one, is either running (status ['active'], no end
    time) or over (status ['ended'], end time set); and whenever the
    orchestrator is active there is a stored session and it is running. *)
Theorem session_lifecycle (cfg : option (gmap string jsval)) (w0 : World)
    (ops : list Op) :
  constructor cfg = Normal w0 ->
  let w := run ops w0 in
  (forall s, getCurrentSession w = Some s ->
     (status s = "active" /\ endTime s = None) \/
     (status s = "ended" /\ is_Some (endTime s))) /\
  (isActive w = true ->
   exists s, getCurrentSession w = Some s /\ status s = "active" /\ endTime s = None).
Proof.
  intros Hc w.
  assert (H0 : lifecycle_inv w0).
  { unfold constructor in Hc. destruct (validateConfig _); [|discriminate].
    injection Hc as <-. split; simpl; intros; discriminate. }
  assert (H : forall ops w1, lifecycle_inv w1 -> lifecycle_inv (run ops w1)).
  { clear. induction ops as [|o ops IH]; intros w1 H1; [exact H1|].
    change (run (o :: ops) w1) with (run ops (run_op o w1)).
    apply IH. by apply run_op_lifecycle. }
  exact (H ops w0 H0).
Qed.

Lemma session_lifecycle_witness :
  exists s,
    getCurrentSession (run [OpStartTranscription env_backend ∅; OpTick 1700000003000 0;
                            OpStopTranscription env_stop_fails] world0) = Some s /\
    status s = "active" /\ endTime s = None.
Proof.
  apply (proj2 (session_lifecycle None world0
                  [OpStartTranscription env_backend ∅; OpTick 1700000003000 0;
                   OpStopTranscription env_stop_fails] constructor_world0)).
  vm_compute. reflexivity.
Defined.

(** ** The mock timer, once transcription is inactive *)

(** X16: a firing of a timer while the orchestrator is inactive emits
    nothing and changes nothing but the timer table, from which the timer
    is gone; whatever fires under that handle afterwards does nothing at
    all. *)
Theorem inactive_tick_cancels_timer (now : Z) (tid : nat) (w : World) (nows : list Z) :
  isTranscribing w = false ->
  let w' := snd (tick now tid w) in
  fst (tick now tid w) = Normal tt /\
  emitted w' = emitted w /\ delivered w' = delivered w /\
  activity_part w' = activity_part w /\ setup_part w' = setup_part w /\
  timers w' = delete tid (timers w) /\
  run (ticks nows tid) w' = w'.
Proof.
  intros Hf w'. subst w'.
  assert (Hdead : forall w1, timers w1 !! tid = None -> run (ticks nows tid) w1 = w1).
  { clear. intros w1 Ht. induction nows as [|n nows IH]; [reflexivity|].
    unfold ticks. simpl. rewrite (tick_cleared n tid w1 Ht). exact IH. }
  destruct (timers w !! tid) as [t|] eqn:Ht.
  - rewrite (tick_inactive now tid w t Ht Hf). simpl.
    repeat split; try reflexivity. apply Hdead. simpl. apply lookup_delete_eq.
  - rewrite (tick_cleared now tid w Ht). simpl.
    repeat split; try reflexivity.
    + symmetry. by apply delete_id.
    + by apply Hdead.
Qed.

Lemma inactive_tick_cancels_timer_witness :
  timers (snd (tick 1700000006000 0
                 (run [OpStartTranscription env_no_backend ∅;
                       OpStopTranscription env_no_backend] world0)))
  = ∅.
Proof.
  rewrite (proj1 (proj2 (proj2 (proj2 (proj2 (proj2
             (inactive_tick_cancels_timer 1700000006000 0
                (run [OpStartTranscription env_no_backend ∅;
                      OpStopTranscription env_no_backend] world0)
                [] ltac:(vm_compute; reflexivity)))))))).
  vm_compute. reflexivity.
Defined.

(** ** Prompt templates *)

Lemma lookup_templates (options : gmap string jsval) (k : string) :
  templates options !! k
  = if decide ("meeting-notes" = k) then Some (JStr meeting_notes_prompt)
    else if decide ("action-items" = k) then Some (JStr action_items_prompt)
    else if decide ("study-notes" = k) then Some (JStr study_notes_prompt)
    else if decide ("interview" = k) then Some (JStr interview_prompt)
    else if decide ("custom" = k)
         then Some (js_or (prop options "customPrompt") (JStr generic_prompt))
    else None.
Proof.
  unfold templates. rewrite !lookup_insert.
  repeat (case_decide; [reflexivity|]). apply lookup_empty.
Qed.

(** X15: the prompt a template name selects.  The four fixed names select
    their fixed text whatever [customPrompt] the caller passes along;
    ['custom'] selects the caller's [customPrompt] when it is truthy and the
    generic instruction otherwise (an empty prompt included); a missing or
    falsy [template] option means ['meeting-notes']; every other name
    falls back to the meeting-notes text, except that a name every object
    inherits (['toString'], ['constructor'], ...) selects that inherited
    member instead of a prompt. *)
Theorem getPromptTemplate_cases (options : gmap string jsval) :
  let custom := prop options "customPrompt" in
  getPromptTemplate "meeting-notes" options = PromptValue (JStr meeting_notes_prompt) /\
  getPromptTemplate "action-items" options = PromptValue (JStr action_items_prompt) /\
  getPromptTemplate "study-notes" options = PromptValue (JStr study_notes_prompt) /\
  getPromptTemplate "interview" options = PromptValue (JStr interview_prompt) /\
  getPromptTemplate "custom" options
  = PromptValue (if truthy custom then custom else JStr generic_prompt) /\
  (truthy (prop options "template") = false ->
   requested_template options = Some "meeting-notes") /\
  (forall template,
     ~ In template ["meeting-notes"; "action-items"; "study-notes"; "interview"; "custom"] ->
     getPromptTemplate template options
     = if inherited_name template then PromptInherited template
       else PromptValue (JStr meeting_notes_prompt)).
Proof.
  intros custom. subst custom.
  assert (Hm : prop (templates options) "meeting-notes" = JStr meeting_notes_prompt).
  { unfold prop. rewrite lookup_templates. reflexivity. }
  unfold getPromptTemplate. rewrite Hm, !lookup_templates. simpl.
  split; [reflexivity|]. split; [reflexivity|]. split; [reflexivity|].
  split; [reflexivity|]. split.
  - unfold js_or. destruct (truthy (prop options "customPrompt")) eqn:Hc.
    + by rewrite Hc.
    + reflexivity.
  - split.
    + intros Hf. unfold requested_template, js_or. by rewrite Hf.
    + intros template Hnot. simpl in Hnot. rewrite lookup_templates.
      repeat (case_decide; [exfalso; apply Hnot; subst; tauto|]).
      reflexivity.
Qed.

Lemma getPromptTemplate_cases_witness :
  getPromptTemplate "summary" (<["customPrompt" := JStr "Be brief."]> ∅)
  = PromptValue (JStr meeting_notes_prompt) /\
  getPromptTemplate "toString" ∅ = PromptInherited "toString" /\
  requested_template (<["template" := JStr ""]> ∅) = Some "meeting-notes".
Proof.
  pose proof (getPromptTemplate_cases (<["customPrompt" := JStr "Be brief."]> ∅))
    as (_ & _ & _ & _ & _ & _ & H1).
  pose proof (getPromptTemplate_cases ∅) as (_ & _ & _ & _ & _ & _ & H2).
  pose proof (getPromptTemplate_cases (<["template" := JStr ""]> ∅))
    as (_ & _ & _ & _ & _ & H3 & _).
  split; [|split].
  - rewrite (H1 "summary"); [reflexivity|].
    simpl. intros [H|[H|[H|[H|[H|[]]]]]]; discriminate H.
  - rewrite (H2 "toString"); [reflexivity|].
    simpl. intros [H|[H|[H|[H|[H|[]]]]]]; discriminate H.
  - apply H3. vm_compute. reflexivity.
Defined.

(** ** Sharing, connecting and summarising *)






(** ** Initialisation with the default features *)

Lemma init_p2p_disabled (env : Env) (w : World) :
  p2p_enabled (config w) = false -> init_p2p env w = (Normal tt, w).
Proof.
  unfold p2p_enabled, init_p2p, bind, get. cbv beta iota. by intros ->.
Qed.

Lemma init_ai_disabled (env : Env) (w : World) :
  ai_configured (config w) = false -> init_ai env w = (Normal tt, w).
Proof.
  unfold ai_configured, init_ai, bind, get. cbv beta iota. by intros ->.
Qed.

Lemma init_transcription_calls (env : Env) (w : World) :
  calls (snd (init_transcription env w))
  = (calls w
     ++ match path_join (prop (config w) "backendPath") "src/electron/TranscriptionManager" with
        | Throw _ => []
        | Normal p =>
            CallRequire p
            :: (if returns (require env p) then [CallNewTranscriptionManager] else [])
        end)%list.
Proof.
  unfold init_transcription, try_catch, load_transcription, bind, get, lift, call,
    update_managers, modify, warn_and_continue, ret.
  cbv beta iota.
  destruct (path_join _ _) as [p|e]; simpl; [|by rewrite app_nil_r].
  destruct (require env p) as [[]|?]; simpl; [|reflexivity].
  destruct (new_TranscriptionManager env) as [[]|?]; simpl; by rewrite <- app_assoc.
Qed.

(** X18: with P2P not enabled and no AI provider other than 'local'
    configured (the defaults), and no step failing without an error object,
    the first [initialize] touches the transcription backend only: the one
    module it requires is the transcription manager under the normalised
    backend path in force (none at all if that path is not a string), the
    one constructor it may call is that manager's, and the drive, session
    and AI handles stay as they were. *)
Theorem initialize_default_features (nu : NullishFailures) (env : Env) (w : World) :
  loads_with_error_objects nu ->
  initialized (managers w) = false ->
  p2p_enabled (config w) = false ->
  ai_configured (config w) = false ->
  let w' := snd (initialize_any nu env w) in
  let base := backendPath_in_force env (config w) in
  calls w'
  = (calls w
     ++ match path_join base "src/electron/TranscriptionManager" with
        | Throw _ => []
        | Normal p =>
            CallRequire p
            :: (if returns (require env p) then [CallNewTranscriptionManager] else [])
        end)%list /\
  hyperdrive (managers w') = hyperdrive (managers w) /\
  session (managers w') = session (managers w) /\
  ai (managers w') = ai (managers w).
Proof.
  intros Hnu Hi Hp Ha w' base. subst w'.
  rewrite (initialize_any_objects nu env w Hnu).
  destruct (initialize_first env w Hi) as (_ & _ & _ & _ & _ & Hh & Hs & _ & Hai & _).
  rewrite Hp in Hh, Hs. rewrite Ha in Hai. simpl in Hh, Hs, Hai.
  split; [|by repeat split].
  destruct (init_backendPath_run env w) as (N1 & Hbase & Hcfg & _ & _ & _ & _ & Hc1).
  remember (snd (init_backendPath env w)) as w1 eqn:E1.
  assert (Hp1 : p2p_enabled (config w1) = false).
  { unfold p2p_enabled in *. by rewrite Hcfg. }
  assert (Ha1 : ai_configured (config w1) = false).
  { unfold ai_configured in *. by rewrite !Hcfg. }
  pose proof (try_warn_normal (load_transcription env) w1) as N3.
  pose proof (init_transcription_quiet env w1) as Q3.
  pose proof (init_transcription_calls env w1) as C3.
  fold (init_transcription env) in N3.
  remember (snd (init_transcription env w1)) as w3 eqn:E3.
  assert (Ha3 : ai_configured (config w3) = false).
  { unfold keeps, quiet_part in Q3. injection Q3 as -> _ _ _ _ _ _ _. exact Ha1. }
  assert (Hrun : initialize env w
                 = (Normal tt,
                    record_emit SigInitialized
                      (set_managers (set_initialized true (managers w3)) w3))).
  { unfold initialize. unfold bind at 1. unfold get at 1. cbv beta iota.
    rewrite Hi.
    rewrite (bind_normal _ _ _ _ N1), <- E1.
    unfold bind at 1. rewrite (init_p2p_disabled env w1 Hp1).
    rewrite (bind_normal _ _ _ _ N3), <- E3.
    unfold bind at 1. rewrite (init_ai_disabled env w3 Ha3).
    reflexivity. }
  rewrite Hrun. simpl. rewrite C3, Hc1, Hbase. reflexivity.
Qed.

Lemma initialize_default_features_witness :
  join_paths "/app/sdk" ".." = "/app" /\
  calls (snd (initialize_any no_nullish env_backend world0))
  = [CallRequire "/app/src/electron/TranscriptionManager"; CallNewTranscriptionManager] /\
  calls (snd (initialize_any no_nullish env_backend
                (set_config (<["backendPath" := JStr "./private"]> default_config) world0)))
  = [CallRequire "private/src/electron/TranscriptionManager"; CallNewTranscriptionManager].
Proof.
  split; [vm_compute; reflexivity|]. split.
  - rewrite (proj1 (initialize_default_features no_nullish env_backend world0
                      ltac:(repeat split; reflexivity) eq_refl
                      ltac:(vm_compute; reflexivity) ltac:(vm_compute; reflexivity))).
    vm_compute. reflexivity.
  - rewrite (proj1 (initialize_default_features no_nullish env_backend
                      (set_config (<["backendPath" := JStr "./private"]> default_config) world0)
                      ltac:(repeat split; reflexivity) eq_refl
                      ltac:(vm_compute; reflexivity) ltac:(vm_compute; reflexivity))).
    vm_compute. reflexivity.
Defined.

(** ** What a failure without an error object does *)




(** With collaborators that fail with error objects only,
    [startTranscription] is the method given first. *)
Lemma start_p2p_session_any_objects (nu : NullishFailures) (env : Env) (sid : string)
    (w : World) :
  error_objects_only nu ->
  start_p2p_session_any nu env sid w = start_p2p_session env sid w.
Proof.
  intros (_ & Hd & _).
  unfold start_p2p_session_any, start_p2p_session, bind, get. cbv beta iota.
  destruct (truthy _ && _); [|reflexivity].
  unfold guarded, try_catch, create_p2p_session_any, create_p2p_session,
    bind_t, bind, inside, step, call, lift, update_session, modify,
    warn_message, warn_and_continue, ret.
  cbv beta iota. rewrite Hd.
  destruct (createSessionDrive env sid) as [info|?]; cbv beta iota; [|reflexivity].
  destruct (get_member info "driveKey") as [dk|?]; cbv beta iota; [|reflexivity].
  destruct (get_member info "discoveryKey") as [dsk|?]; reflexivity.
Qed.

Lemma start_capture_any_objects (nu : NullishFailures) (env : Env) (sid : string)
    (options : gmap string jsval) (w : World) :
  error_objects_only nu ->
  start_capture_any nu env sid options w = start_capture env sid options w.
Proof.
  intros (_ & _ & Hs).
  unfold start_capture_any, start_capture, bind, get. cbv beta iota.
  destruct (transcription (managers w)) as [h|]; [|reflexivity].
  unfold guarded, try_catch, start_backend_any, start_backend,
    bind_t, bind, inside, step, call, get, update_managers, modify,
    log_message_then_rethrow, log_message_and_rethrow, throw.
  cbv beta iota. rewrite Hs.
  destruct (transcription_start env) as [[]|?]; reflexivity.
Qed.

Lemma startTranscription_any_objects (nu : NullishFailures) (env : Env)
    (options : gmap string jsval) (w : World) :
  error_objects_only nu ->
  startTranscription_any nu env options w = startTranscription env options w.
Proof.
  intros Hnu. pose proof Hnu as (Hload & _).
  unfold startTranscription_any, startTranscription. unfold bind at 1 8. unfold get at 1 3.
  cbv beta iota.
  destruct (isTranscribing w); [reflexivity|].
  unfold bind at 1 7. rewrite (initialize_any_objects nu env w Hload).
  destruct (initialize env w) as [[[]|e] w1]; [|reflexivity].
  unfold bind at 1 6. unfold modify at 1 2. cbv beta iota.
  unfold bind at 1 5. rewrite (start_p2p_session_any_objects nu env _ _ Hnu).
  destruct (start_p2p_session env _ _) as [[[]|e] w3]; [|reflexivity].
  unfold bind at 1 4. rewrite (start_capture_any_objects nu env _ options w3 Hnu).
  reflexivity.
Qed.

(** The three steps of a start, once the orchestrator is known to be
    inactive. *)
Lemma startTranscription_any_run (nu : NullishFailures) (env : Env)
    (options : gmap string jsval) (w : World) :
  isTranscribing w = false ->
  let sid := generateSessionId env in
  startTranscription_any nu env options w
  = match initialize_any nu env w with
    | (Throw e, w1) => (Throw e, w1)
    | (Normal _, w1) =>
        match start_p2p_session_any nu env sid
                (set_currentSession (Some (new_session env)) w1) with
        | (Throw e, w3) => (Throw e, w3)
        | (Normal _, w3) =>
            match start_capture_any nu env sid options w3 with
            | (Normal _, w4) =>
                (Normal (currentSession w4),
                 record_emit (SigSessionStarted (currentSession w4)) w4)
            | (Throw e, w4) => (Throw e, w4)
            end
        end
    end.
Proof.
  intros Hf sid.
  unfold startTranscription_any. unfold bind at 1. unfold get at 1. cbv beta iota.
  rewrite Hf. unfold bind at 1.
  destruct (initialize_any nu env w) as [[[]|e1] w1]; [|reflexivity].
  unfold bind at 1. unfold modify at 1. cbv beta iota.
  change (session_id (new_session env)) with sid.
  unfold bind at 1.
  destruct (start_p2p_session_any nu env sid _) as [[[]|e3] w3]; [|reflexivity].
  unfold bind at 1.
  destruct (start_capture_any nu env sid options w3) as [[[]|e4] w4]; reflexivity.
Qed.

Lemma start_p2p_session_any_frame (nu : NullishFailures) (env : Env) (sid : string)
    (w : World) :
  p2p_session_part (snd (start_p2p_session_any nu env sid w)) = p2p_session_part w.
Proof.
  unfold start_p2p_session_any, bind, get. cbv beta iota.
  destruct (truthy _ && _); [|reflexivity].
  unfold guarded, create_p2p_session_any, bind_t, inside, step, lift, update_session,
    modify, warn_message, ret, throw.
  cbv beta iota. split_cases; cbn [fst snd]; unfold p2p_session_part; simpl;
    by destruct (currentSession w).
Qed.

(** X21: [startTranscription] when a failure carries no error object.
    The handler of the session-drive creation reads [error.message]: when
    the creation rejects with [null] or [undefined], the start itself
    rejects, with the [TypeError] of that read, although a rejection with
    an error object is only warned about.  The new session record is
    already stored, the orchestrator stays inactive, the transcription
    backend is never asked to start and no [session:started] is emitted.
    The handler of the delegated start reads the message too: when that
    start rejects with [null] or [undefined], the caller gets the
    [TypeError] of the read in place of the rejection value; the
    orchestrator stays inactive, no forwarding listener is registered and
    no [session:started] is emitted. *)
Theorem startTranscription_rejects_without_error_object (nu : NullishFailures)
    (env : Env) (options : gmap string jsval) (w : World) :
  isTranscribing w = false ->
  fst (initialize_any nu env w) = Normal tt ->
  let w1 := snd (initialize_any nu env w) in
  let sid := generateSessionId env in
  let w3 := snd (start_p2p_session_any nu env sid
                   (set_currentSession (Some (new_session env)) w1)) in
  let r := startTranscription_any nu env options w in
  (forall v,
     truthy (prop (config w1) "p2p") && session (managers w1) = true ->
     nullish_createSessionDrive nu sid = Some v ->
     fst r = Throw (no_message v) /\
     isActive (snd r) = false /\
     getCurrentSession (snd r) = Some (new_session env) /\
     emitted (snd r) = emitted w1 /\
     calls (snd r) = (calls w1 ++ [CallCreateSessionDrive sid])%list /\
     managers (snd r) = managers w1 /\ timers (snd r) = timers w1) /\
  (forall h v,
     fst (start_p2p_session_any nu env sid
            (set_currentSession (Some (new_session env)) w1)) = Normal tt ->
     transcription (managers w1) = Some h ->
     nullish_transcription_start nu = Some v ->
     fst r = Throw (no_message v) /\
     isActive (snd r) = false /\
     session_core <$> getCurrentSession (snd r) = Some (session_core (new_session env)) /\
     emitted (snd r) = emitted w1 /\
     last (calls (snd r))
     = Some (CallStartTranscription
               (start_options sid (prop (config w1) "storagePath") options)) /\
     managers (snd r) = managers w1 /\ timers (snd r) = timers w1).
Proof.
  intros Hf Hn w1 sid w3 r.
  assert (Hf1 : isTranscribing w1 = false).
  { destruct (initialized (managers w)) eqn:Hi.
    - subst w1. by rewrite (initialize_any_again nu env w Hi).
    - destruct (initialize_any_first nu env w Hi) as (Hs & _).
      unfold session_part in Hs. injection Hs as Hx _ _ _ _.
      subst w1. by rewrite Hx. }
  assert (Er : r = startTranscription_any nu env options w) by reflexivity.
  rewrite (startTranscription_any_run nu env options w Hf) in Er. cbv zeta in Er.
  fold sid in Er.
  assert (E1 : initialize_any nu env w = (Normal tt, w1)).
  { subst w1. destruct (initialize_any nu env w) as [c w0]. simpl in Hn. by rewrite Hn. }
  rewrite E1 in Er. clearbody r. clearbody w1. clear E1 Hn.
  split.
  - intros v Hcond Hv.
    assert (H3 : start_p2p_session_any nu env sid
                   (set_currentSession (Some (new_session env)) w1)
                 = (Throw (no_message v),
                    record_call (CallCreateSessionDrive sid)
                      (set_currentSession (Some (new_session env)) w1))).
    { unfold start_p2p_session_any, bind, get. cbv beta iota.
      change (config (set_currentSession (Some (new_session env)) w1)) with (config w1).
      change (managers (set_currentSession (Some (new_session env)) w1)) with (managers w1).
      rewrite Hcond.
      unfold guarded, create_p2p_session_any, bind_t, step, warn_message, throw.
      by rewrite Hv. }
    rewrite H3 in Er. subst r. cbn [fst snd]. simpl.
    by repeat split.
  - intros h v Hn3 Hh Hv.
    pose proof (start_p2p_session_any_frame nu env sid
                  (set_currentSession (Some (new_session env)) w1)) as F3.
    fold w3 in F3, Hn3.
    assert (E3 : start_p2p_session_any nu env sid
                   (set_currentSession (Some (new_session env)) w1) = (Normal tt, w3)).
    { subst w3. destruct (start_p2p_session_any nu env sid _) as [c w0].
      simpl in Hn3. by rewrite Hn3. }
    rewrite E3 in Er. clearbody w3. clear E3 Hn3.
    unfold p2p_session_part in F3. simpl in F3.
    injection F3 as C3 T3 S3 M3 L3 I3 X3 Em3 D3.
    assert (H4 : start_capture_any nu env sid options w3
                 = (Throw (no_message v),
                    record_call (CallStartTranscription
                                   (start_options sid (prop (config w3) "storagePath")
                                      options)) w3)).
    { unfold start_capture_any, bind, get. cbv beta iota. rewrite M3, Hh.
      unfold guarded, start_backend_any, bind_t, inside, step, get,
        log_message_then_rethrow, throw.
      cbv beta iota. by rewrite Hv. }
    rewrite H4 in Er. subst r. cbn [fst snd]. simpl.
    rewrite C3. unfold isActive, getCurrentSession.
    repeat split; try congruence. apply last_snoc.
Qed.

Lemma startTranscription_rejects_without_error_object_witness :
  fst (startTranscription_any drive_creation_rejects_undefined env_backend ∅ world_p2p)
  = Throw (TypeError "Cannot read properties of undefined (reading 'message')") /\
  isActive (snd (startTranscription_any drive_creation_rejects_undefined env_backend ∅
                   world_p2p)) = false /\
  fst (startTranscription_any start_rejects_undefined env_backend ∅ world0)
  = Throw (TypeError "Cannot read properties of undefined (reading 'message')").
Proof.
  destruct (proj1 (startTranscription_rejects_without_error_object
                     drive_creation_rejects_undefined env_backend ∅ world_p2p
                     eq_refl ltac:(vm_compute; reflexivity))
              UndefinedValue ltac:(vm_compute; reflexivity) eq_refl) as (H1 & H2 & _).
  destruct (proj2 (startTranscription_rejects_without_error_object
                     start_rejects_undefined env_backend ∅ world0
                     eq_refl ltac:(vm_compute; reflexivity))
              {| forwarders := 0 |} UndefinedValue
              ltac:(vm_compute; reflexivity) ltac:(vm_compute; reflexivity) eq_refl)
    as (H3 & _).
  split; [exact H1|]. split; [exact H2|exact H3].
Defined.

(** ** The mock generator on an orchestrator without a leftover timer *)

(** With one timer registered and the orchestrator active, only the firings
    of that timer emit, one event each, counting on from where the timer
    stands. *)
Lemma firings_single_timer (tid : nat) (fs : list (Z * nat)) (w : World) (c : nat) :
  isTranscribing w = true ->
  timers w = {[ tid := {| period_ms := 3000; counter := c |} ]} ->
  emitted (run (firings fs) w)
  = (emitted w
     ++ imap (fun k f => SigTranscription (mock_event (c + k) (fst f)))
             (List.filter (fun f => Nat.eqb (snd f) tid) fs))%list.
Proof.
  revert w c. induction fs as [|[now tid'] fs IH]; intros w c Hf Ht.
  - simpl. by rewrite app_nil_r.
  - change (run (firings ((now, tid') :: fs)) w)
      with (run (firings fs) (snd (tick now tid' w))).
    simpl List.filter. destruct (Nat.eqb tid' tid) eqn:Heq.
    + apply Nat.eqb_eq in Heq. subst tid'.
      assert (Hl : timers w !! tid = Some {| period_ms := 3000; counter := c |}).
      { rewrite Ht. apply lookup_singleton_eq. }
      rewrite (tick_active now tid w _ Hl Hf). cbn [snd period_ms counter].
      rewrite (IH _ (S c)).
      * simpl. rewrite <- app_assoc. simpl. rewrite Nat.add_0_r. do 2 f_equal.
        apply imap_ext. intros k f _. simpl. do 2 f_equal. lia.
      * exact Hf.
      * simpl. rewrite Ht. apply insert_singleton_eq.
    + apply Nat.eqb_neq in Heq.
      assert (Hl : timers w !! tid' = None).
      { rewrite Ht. apply lookup_singleton_ne. congruence. }
      rewrite (tick_cleared now tid' w Hl). cbn [snd]. by apply IH.
Qed.

(** X22: the mock generator on an orchestrator that holds no timer of an
    earlier session (a fresh one, in particular).  After a start that finds
    no transcription handle, whatever timer handles fire, in whatever
    order and however often, the events emitted are those of the firings of
    the timer this start registered, one each and in order: the k-th event
    emitted after the start (k from 0) carries the (k mod 5)-th phrase,
    confidence 0.95, isFinal true, speaker "Speaker 1" and the clock value
    of its firing. *)
Theorem mock_cycle_without_leftover_timer (env : Env) (options : gmap string jsval)
    (w : World) (fs : list (Z * nat)) :
  isTranscribing w = false ->
  transcription (managers (snd (initialize env w))) = None ->
  timers w = ∅ ->
  let w1 := snd (startTranscription env options w) in
  let own := List.filter (fun f => Nat.eqb (snd f) (next_timer w)) fs in
  emitted (run (firings fs) w1)
  = (emitted w1
     ++ imap (fun k f =>
                SigTranscription {| text := nth (k mod 5) mockPhrases "";
                                    timestamp := fst f;
                                    confidence := 0.95%float;
                                    isFinal := true;
                                    speaker := Some "Speaker 1" |}) own)%list.
Proof.
  intros Hf Hh Ht w1 own.
  destruct (startTranscription_mock_run env options w Hf Hh) as (_ & Hf1 & Ht1 & _).
  fold w1 in Hf1, Ht1. rewrite Ht in Ht1.
  rewrite (firings_single_timer (next_timer w) fs w1 0 Hf1).
  - reflexivity.
  - rewrite Ht1. apply insert_empty.
Qed.

Lemma mock_cycle_without_leftover_timer_witness :
  emitted (run (firings [(1700000003000%Z, 0); (1700000004000%Z, 7); (1700000006000%Z, 0)])
             (snd (startTranscription env_no_backend ∅ world0)))
  = (emitted (snd (startTranscription env_no_backend ∅ world0))
     ++ [ SigTranscription (mock_event 0 1700000003000);
          SigTranscription (mock_event 1 1700000006000) ])%list.
Proof.
  rewrite (mock_cycle_without_leftover_timer env_no_backend ∅ world0
             [(1700000003000%Z, 0); (1700000004000%Z, 7); (1700000006000%Z, 0)]
             eq_refl ltac:(vm_compute; reflexivity) eq_refl).
  reflexivity.
Defined.
